(** * DevDriver user-mode Windows platform layer (ddcWinPlatform.cpp)

    A shallow embedding of the platform layer of
    [shared/gpuopen/core/src/platforms/ddcWinPlatform.cpp]: the wait
    primitive, the atomic operations, the thread object, the spin lock and
    the directory helper, together with the properties their specification
    states about them.

    The operating system is not part of the program.  Every Win32 entry point
    the code calls is a constructor of [OsCall]; what the system answers is
    given by an arbitrary function [OS] of the history of the run so far and
    of the call.  A function of the source becomes a computation in the
    monad [M], which reads the history, asks the system and returns its
    result together with the effects it had, in program order.  Theorems
    quantify over every [OS]: they hold whatever the system answers. *)

From Stdlib Require Import ZArith List String Ascii Bool Lia Permutation.
Import ListNotations.

Local Open Scope string_scope.
Local Open Scope list_scope.
Local Open Scope Z_scope.

(** ** Machine integers *)

(** A [w]-bit unsigned integer is a [Z] reduced modulo [2^w]; a signed one is
    the two's-complement reading of the same bits. *)
Definition wrap_unsigned (w z : Z) : Z := z mod 2 ^ w.

Definition wrap_signed (w z : Z) : Z :=
  (z + 2 ^ (w - 1)) mod 2 ^ w - 2 ^ (w - 1).

Definition to_uint32 : Z -> Z := wrap_unsigned 32.
Definition to_int32 : Z -> Z := wrap_signed 32.
Definition to_int64 : Z -> Z := wrap_signed 64.
(** Pointers and handles of a 64-bit process. *)
Definition to_ptr : Z -> Z := wrap_unsigned 64.
Definition to_size_t : Z -> Z := wrap_unsigned 64.

Definition INT32_MIN : Z := - 2 ^ 31.
Definition INT64_MIN : Z := - 2 ^ 63.
Definition SIZE_MAX : Z := 2 ^ 64 - 1.

(** [HANDLE], [HMODULE], function pointers and [void*] are addresses. *)
Definition HANDLE := Z.
Definition NULL : Z := 0.

(** Constants of the Windows SDK headers used by the file. *)
Definition WAIT_OBJECT_0 : Z := 0.
Definition WAIT_ABANDONED : Z := 128.
Definition WAIT_TIMEOUT : Z := 258.
Definition WAIT_FAILED : Z := 4294967295.
Definition ERROR_INVALID_HANDLE : Z := 6.
Definition ERROR_ALREADY_EXISTS : Z := 183.
(** [E_FAIL] is [0x80004005], read as the signed 32-bit [HRESULT]. *)
Definition E_FAIL : Z := to_int32 2147500037.
Definition S_OK : Z := 0.
(** [SUCCEEDED(hr)] is [((HRESULT)(hr)) >= 0]. *)
Definition SUCCEEDED (hr : Z) : bool := 0 <=? hr.

(** ** Results and diagnostics *)

(** Modelled from the spec: the [Result] enumeration is declared in a header
    that is not part of the file; these are the values of the taxonomy of
    the error-handling design. *)
Inductive Result : Type :=
| Success
| Error
| NotReady
| Unavailable
| InvalidParameter
| FileNotFound
| FileIoError.

Definition Result_eqb (a b : Result) : bool :=
  match a, b with
  | Success, Success | Error, Error | NotReady, NotReady
  | Unavailable, Unavailable | InvalidParameter, InvalidParameter
  | FileNotFound, FileNotFound | FileIoError, FileIoError => true
  | _, _ => false
  end.

Inductive LogLevel : Type :=
| LogDebug | LogVerbose | LogInfo | LogAlert | LogError | LogAlways.

(** What the diagnostic macros hand to the logging collaborator. *)
Inductive Diag : Type :=
| DiagPrint (lvl : LogLevel) (format : string) (args : list Z)
| DiagWarn (what : string)
| DiagAssert (what : string).

(** ** The operating system *)

(** The Win32 and C-runtime entry points the modelled functions call, with
    the arguments the code passes.  [SysCreateThread] carries the entry
    function and parameter the thread shim will run; [SysSetThreadDescription]
    carries the function pointer obtained from [GetProcAddress], the thread
    handle and the wide string read from the conversion buffer. *)
Inductive OsCall : Type :=
| SysWaitForSingleObject (hObject : HANDLE) (millisecTimeout : Z)
| SysGetLastError
| SysCreateThread (pFnFunction pParameter : Z)
| SysCloseHandle (hObject : HANDLE)
| SysGetModuleHandle (name : string)
| SysGetProcAddress (hModule : HANDLE) (name : string)
| SysSetThreadDescription (pfn : Z) (hThread : HANDLE) (description : list Z)
| SysCreateDirectory (path : string)
| SysResetEvent (hEvent : HANDLE)
| SysSetEvent (hEvent : HANDLE)
| SysReleaseSemaphore (hSemaphore : HANDLE) (count : Z).

(** What a run leaves behind: the calls made to the system, each with what
    it returned, and the diagnostics emitted. *)
Inductive Effect : Type :=
| EvCall (c : OsCall) (returned : Z)
| EvDiag (d : Diag).

Definition Trace := list Effect.

(** The system: its answer to a call, given everything that happened
    before. *)
Definition OS := Trace -> OsCall -> Z.

(** The C type of what a call returns: the raw answer of the system is read
    at that type. *)
Definition returned_at (c : OsCall) (raw : Z) : Z :=
  match c with
  | SysWaitForSingleObject _ _ | SysGetLastError => to_uint32 raw
  | SysCreateThread _ _ | SysGetModuleHandle _ | SysGetProcAddress _ _ =>
      to_ptr raw
  | SysCloseHandle _ | SysCreateDirectory _ | SysResetEvent _
  | SysSetEvent _ | SysReleaseSemaphore _ _ | SysSetThreadDescription _ _ _ =>
      to_int32 raw
  end.

(** What the system [os] returns to call [c] after history [h]. *)
Definition os_returns (os : OS) (h : Trace) (c : OsCall) : Z :=
  returned_at c (os h c).

(** ** Sample systems, used to run the model on concrete inputs *)

(** A system that answers every call with the same value. *)
Definition os_always (z : Z) : OS := fun _ _ => z.

(** A system on which the awaited object is signaled, handles close, thread
    creation yields handle [4096], but [CloseHandle] fails when [close_ok]
    is [false] and the directory call fails with last error [last_error]. *)
Definition os_scripted (close_ok : bool) (last_error : Z) : OS :=
  fun _ c =>
    match c with
    | SysWaitForSingleObject _ _ => WAIT_OBJECT_0
    | SysGetLastError => last_error
    | SysCreateThread _ _ => 4096
    | SysCloseHandle _ => if close_ok then 1 else 0
    | SysGetModuleHandle _ => 65536
    | SysGetProcAddress _ _ => 65600
    | SysSetThreadDescription _ _ _ => E_FAIL
    | SysCreateDirectory _ => 0
    | _ => 1
    end.

(** A system whose waits report the status [status]. *)
Definition os_wait_status (status : Z) : OS :=
  fun _ c =>
    match c with
    | SysWaitForSingleObject _ _ => status
    | SysGetLastError => ERROR_INVALID_HANDLE
    | _ => 1
    end.

(** ** The monad of platform code *)

(** A computation reads the history and returns a value with the effects it
    had itself. *)
Definition M (A : Type) : Type := Trace -> A * Trace.

Definition ret {A : Type} (a : A) : M A := fun _ => (a, []).

Definition bind {A B : Type} (m : M A) (k : A -> M B) : M B :=
  fun h =>
    let (a, e1) := m h in
    let (b, e2) := k a (h ++ e1) in
    (b, e1 ++ e2).

Notation "x <- m ;; k" := (bind m (fun x => k))
  (at level 61, m at next level, right associativity).
Notation "m ;; k" := (bind m (fun _ => k))
  (at level 61, right associativity).

Definition emit (d : Diag) : M unit := fun _ => (tt, [EvDiag d]).

(** Modelled from the spec: the diagnostic macros [DD_PRINT], [DD_WARN],
    [DD_WARN_REASON], [DD_ASSERT], [DD_ASSERT_REASON] and [DD_ASSERT_ALWAYS]
    are defined in a header that is not part of the file.  Each hands one
    message to the diagnostic-emission hook: a print, a warning, or an
    assertion failure (the fatal, bug-signalling severity); the conditional
    forms do so when their condition is false.  Control returns to the
    caller afterwards, as the code following each use is written. *)
Definition DD_PRINT (lvl : LogLevel) (format : string) (args : list Z) : M unit :=
  emit (DiagPrint lvl format args).

Definition DD_WARN (statement : bool) (text : string) : M unit :=
  if statement then ret tt else emit (DiagWarn text).

Definition DD_WARN_REASON (reason : string) : M unit :=
  emit (DiagWarn reason).

Definition DD_ASSERT (statement : bool) (text : string) : M unit :=
  if statement then ret tt else emit (DiagAssert text).

Definition DD_ASSERT_REASON (reason : string) : M unit :=
  emit (DiagAssert reason).

Definition DD_ASSERT_ALWAYS : M unit :=
  emit (DiagAssert "Unconditional Assert").

(** ** Atomic operations *)

(** [Atomic] is a volatile 32-bit [long], [Atomic64] a volatile 64-bit one.
    An interlocked intrinsic is one indivisible step on the cell: it takes
    the content of the cell and gives back what it returns and the new
    content. *)
Definition InterlockedIncrement (cell : Z) : Z * Z :=
  let v := to_int32 (cell + 1) in (v, v).

Definition InterlockedDecrement (cell : Z) : Z * Z :=
  let v := to_int32 (cell - 1) in (v, v).

Definition InterlockedAdd (cell value : Z) : Z * Z :=
  let v := to_int32 (cell + value) in (v, v).

Definition InterlockedIncrement64 (cell : Z) : Z * Z :=
  let v := to_int64 (cell + 1) in (v, v).

Definition InterlockedDecrement64 (cell : Z) : Z * Z :=
  let v := to_int64 (cell - 1) in (v, v).

Definition InterlockedAdd64 (cell value : Z) : Z * Z :=
  let v := to_int64 (cell + value) in (v, v).

(** [InterlockedCompareExchange(Destination, Exchange, Comperand)], in its
    acquire and release forms: stores [Exchange] when the cell holds
    [Comperand], and returns the initial content either way. *)
Definition InterlockedCompareExchange (cell exchange comperand : Z) : Z * Z :=
  (cell, if cell =? comperand then exchange else cell).

Definition InterlockedCompareExchangeAcquire := InterlockedCompareExchange.
Definition InterlockedCompareExchangeRelease := InterlockedCompareExchange.

(** The casts of the result and of the operand are written out; [long] is
    32 bits wide on Windows, and the negation of the operand wraps. *)
Definition cast_result (to : Z -> Z) (r : Z * Z) : Z * Z := (to (fst r), snd r).

Definition AtomicIncrement (pVariable : Z) : Z * Z :=
  cast_result to_int32 (InterlockedIncrement pVariable).

Definition AtomicAdd (pVariable num : Z) : Z * Z :=
  cast_result to_int32 (InterlockedAdd pVariable (to_int32 num)).

Definition AtomicDecrement (pVariable : Z) : Z * Z :=
  cast_result to_int32 (InterlockedDecrement pVariable).

Definition AtomicSubtract (pVariable num : Z) : Z * Z :=
  cast_result to_int32 (InterlockedAdd pVariable (to_int32 (- to_int32 num))).

(** The overloads on [Atomic64]. *)
Definition AtomicIncrement64 (pVariable : Z) : Z * Z :=
  cast_result to_int64 (InterlockedIncrement64 pVariable).

Definition AtomicAdd64 (pVariable num : Z) : Z * Z :=
  cast_result to_int64 (InterlockedAdd64 pVariable (to_int64 num)).

Definition AtomicDecrement64 (pVariable : Z) : Z * Z :=
  cast_result to_int64 (InterlockedDecrement64 pVariable).

Definition AtomicSubtract64 (pVariable num : Z) : Z * Z :=
  cast_result to_int64 (InterlockedAdd64 pVariable (to_int64 (- to_int64 num))).

(** [Windows::ReleaseFastLock] on the lock word [mutex]. *)
Definition ReleaseFastLock (mutex : Z) : Result * Z :=
  let (initial, mutex') := InterlockedCompareExchangeRelease mutex 0 1 in
  if initial =? 0 then (Error, mutex') else (Success, mutex').

(** ** Objects *)

Record Event : Type := { m_event : HANDLE }.

Record Semaphore : Type := { m_semaphore : HANDLE }.

Record AtomicLock : Type := { m_lock : Z }.

Record Thread : Type := {
  pFnFunction : Z;
  pParameter : Z;
  hThread : HANDLE;
  onExit : Event
}.

(** Modelled from the spec: [Thread::Reset] is defined in a header that is
    not part of the file.  It puts the object back in the unstarted state:
    the execution handle is empty, no entry function or parameter is kept. *)
Definition Reset (this : Thread) : Thread :=
  {| pFnFunction := NULL; pParameter := NULL; hThread := NULL;
     onExit := onExit this |}.

Definition IsJoinable (this : Thread) : bool := negb (hThread this =? NULL).

(** ** Multibyte conversion *)

(** One step of the multibyte decoder of the current locale: from the bytes
    that remain, the next wide character and the bytes after it, or [None]
    on an invalid sequence. *)
Definition Decoder := string -> option (Z * string).

(** The decoder of the "C" locale: one byte, one wide character. *)
Definition mbtowc_C : Decoder :=
  fun s =>
    match s with
    | EmptyString => None
    | String c rest => Some (Z.of_N (N_of_ascii c), rest)
    end.

(** A decoder with two-byte characters: a byte of [128] or more leads a
    pair, and a lead byte with nothing after it is invalid. *)
Definition mbtowc_dbcs : Decoder :=
  fun s =>
    match s with
    | EmptyString => None
    | String c rest =>
        let b := Z.of_N (N_of_ascii c) in
        if b <? 128 then Some (b, rest)
        else match rest with
             | EmptyString => None
             | String d rest' => Some (256 * b + Z.of_N (N_of_ascii d), rest')
             end
    end.

(** The wide characters [mbstowcs] stores for source [src] when it may write
    at most [len] of them, and how many it converted ([None] for the error
    return).  The terminating zero is stored when there is room for it and
    is not counted. *)
Fixpoint mbstowcs_chars (mbtowc : Decoder) (src : string) (len : nat)
  : list Z * option nat :=
  match len with
  | O => ([], Some O)
  | S len' =>
      match src with
      | EmptyString => ([0], Some O)
      | String _ _ =>
          match mbtowc src with
          | None => ([], None)
          | Some (wc, rest) =>
              let (ws, n) := mbstowcs_chars mbtowc rest len' in
              (wc :: ws, option_map S n)
          end
      end
  end.

(** Storing [ws] from the start of the array [dst].  An array is a list of
    its elements; a store past its end makes the list longer, which is how
    an overflow shows in the model. *)
Definition store_wcs (ws dst : list Z) : list Z :=
  ws ++ skipn (List.length ws) dst.

(** [mbstowcs(dst, src, len)]: the array after the call and the returned
    count, [(size_t)-1] on an invalid sequence. *)
Definition mbstowcs (mbtowc : Decoder) (dst : list Z) (src : string) (len : nat)
  : list Z * Z :=
  let (ws, n) := mbstowcs_chars mbtowc src len in
  (store_wcs ws dst,
   match n with Some k => Z.of_nat k | None => SIZE_MAX end).

(** The wide string a callee reads from a buffer: up to the first zero. *)
Fixpoint wcs_of (buf : list Z) : list Z :=
  match buf with
  | [] => []
  | c :: rest => if c =? 0 then [] else c :: wcs_of rest
  end.

Definition strlen (s : string) : nat := String.length s.

(** ** Observations on traces *)

(** A release: a [CloseHandle] that the system reports as done. *)
Definition is_release (e : Effect) : bool :=
  match e with
  | EvCall (SysCloseHandle _) r => negb (r =? 0)
  | _ => false
  end.

Definition released (ev : Trace) : nat := List.length (filter is_release ev).

(** A call to the system, as opposed to a diagnostic. *)
Definition is_call (e : Effect) : bool :=
  match e with
  | EvCall _ _ => true
  | EvDiag _ => false
  end.

Definition calls (ev : Trace) : Trace := filter is_call ev.

(** A call of the thread-naming function. *)
Definition is_naming (e : Effect) : bool :=
  match e with
  | EvCall (SysSetThreadDescription _ _ _) _ => true
  | _ => false
  end.

(** ** Clients of a thread object *)

(** Modelled from the spec: the constructor of [Thread] is defined in a
    header that is not part of the file.  A thread object is constructed
    unstarted, its handle empty, around its exit event. *)
Definition Thread_new (exitEvent : Event) : Thread :=
  {| pFnFunction := NULL; pParameter := NULL; hThread := NULL;
     onExit := exitEvent |}.

(** Sample objects: a thread object that was never started and one that
    holds the handle [4096]. *)
Definition thread_idle : Thread := Thread_new {| m_event := 512 |}.

Definition thread_running : Thread :=
  {| pFnFunction := 8192; pParameter := 0; hThread := 4096;
     onExit := {| m_event := 512 |} |}.

(** A name of five bytes and three characters for [mbtowc_dbcs]. *)
Definition name_dbcs : string :=
  String (ascii_of_N 200) (String (ascii_of_N 65)
    (String (ascii_of_N 201) (String (ascii_of_N 66) "C"))).

(** What an owner may do with the object, and the bookkeeping of the
    specification: the handle is bound from a [Start] that succeeded until a
    [Join] that succeeded. *)
Inductive ThreadOp : Type :=
| OpStart (pFnThreadFunc pThreadParameter : Z)
| OpJoin (timeoutInMs : Z).

Fixpoint handle_bound (bound : bool) (log : list (ThreadOp * Result)) : bool :=
  match log with
  | [] => bound
  | (OpStart _ _, Success) :: rest => handle_bound true rest
  | (OpJoin _, Success) :: rest => handle_bound false rest
  | _ :: rest => handle_bound bound rest
  end.

Section Platform.

(** The system the code runs on. *)
Variable os : OS.

Definition syscall (c : OsCall) : M Z :=
  fun h => let r := os_returns os h c in (r, [EvCall c r]).

Definition WaitForSingleObject (hObject : HANDLE) (ms : Z) : M Z :=
  syscall (SysWaitForSingleObject hObject ms).
Definition GetLastError : M Z := syscall SysGetLastError.
Definition CloseHandle (hObject : HANDLE) : M Z := syscall (SysCloseHandle hObject).
Definition CreateDirectory (path : string) : M Z := syscall (SysCreateDirectory path).
Definition ResetEvent (hEvent : HANDLE) : M Z := syscall (SysResetEvent hEvent).
Definition SetEvent (hEvent : HANDLE) : M Z := syscall (SysSetEvent hEvent).
Definition ReleaseSemaphore (hSemaphore : HANDLE) (count : Z) : M Z :=
  syscall (SysReleaseSemaphore hSemaphore count).
Definition GetModuleHandle (name : string) : M Z := syscall (SysGetModuleHandle name).
Definition GetProcAddress (hModule : HANDLE) (name : string) : M Z :=
  syscall (SysGetProcAddress hModule name).

(** ** WaitObject *)

(** The [switch] of [WaitObject] on the wait status, with the diagnostics of
    each case. *)
Definition WaitObject_switch (status : Z) : M Result :=
  if status =? WAIT_OBJECT_0 then ret Success
  else if status =? WAIT_TIMEOUT then ret NotReady
  else if status =? WAIT_FAILED then
    lastError <- GetLastError ;;
    (if lastError =? ERROR_INVALID_HANDLE then
       DD_PRINT LogAlways "WaitForSingleObject() failed with ERROR_INVALID_HANDLE" []
     else
       e1 <- GetLastError ;;
       e2 <- GetLastError ;;
       DD_PRINT LogAlways "WaitForSingleObject() failed - GLE=%d 0x%x" [e1; e2]) ;;
    DD_ASSERT_ALWAYS ;;
    ret Error
  else
    DD_PRINT LogAlways "WaitForSingleObject() returned %d (0x%x)" [status; status] ;;
    ret Error.

Definition WaitObject (hObject : HANDLE) (millisecTimeout : Z) : M Result :=
  DD_ASSERT (negb (hObject =? NULL)) "hObject != NULL" ;;
  status <- WaitForSingleObject hObject millisecTimeout ;;
  result <- WaitObject_switch status ;;
  DD_WARN (negb (Result_eqb result Error)) "result != Result::Error" ;;
  ret result.

(** ** Event and Semaphore *)

Definition Event_Clear (this : Event) : M unit :=
  ResetEvent (m_event this) ;; ret tt.

Definition Event_Signal (this : Event) : M unit :=
  SetEvent (m_event this) ;; ret tt.

Definition Event_Wait (this : Event) (timeoutInMs : Z) : M Result :=
  WaitObject (m_event this) timeoutInMs.

Definition SignalSharedSemaphore (pSemaphore : HANDLE) : M Result :=
  DD_ASSERT (negb (pSemaphore =? NULL)) "pSemaphore != NULL" ;;
  result <- ReleaseSemaphore pSemaphore 1 ;;
  ret (if negb (result =? 0) then Success else Error).

Definition Semaphore_Signal (this : Semaphore) : M Result :=
  SignalSharedSemaphore (m_semaphore this).

Definition Semaphore_Wait (this : Semaphore) (millisecTimeout : Z) : M Result :=
  WaitObject (m_semaphore this) millisecTimeout.

(** ** Thread *)

(** A method returns its result and the object after the call. *)
Definition Thread_Start (this : Thread) (pFnThreadFunc pThreadParameter : Z)
  : M (Result * Thread) :=
  if (hThread this =? NULL) && negb (pFnThreadFunc =? NULL) then
    let this :=
      {| pFnFunction := pFnThreadFunc; pParameter := pThreadParameter;
         hThread := hThread this; onExit := onExit this |} in
    created <- syscall (SysCreateThread (pFnFunction this) (pParameter this)) ;;
    let this :=
      {| pFnFunction := pFnFunction this; pParameter := pParameter this;
         hThread := created; onExit := onExit this |} in
    let result := if negb (hThread this =? NULL) then Success else Error in
    DD_WARN (negb (Result_eqb result Error)) "result != Result::Error" ;;
    ret (result, this)
  else
    ret (Error, this).

(** The first block of [Thread::Join]: the zero-timeout wait on the thread
    handle, then the wait on the exit event when the thread is alive. *)
Definition Thread_Join_wait (this : Thread) (timeoutInMs : Z) (result : Result)
  : M Result :=
  if Result_eqb result Success then
    alive <- WaitObject (hThread this) 0 ;;
    let isThreadAlive := Result_eqb alive NotReady in
    if isThreadAlive then Event_Wait (onExit this) timeoutInMs else ret result
  else ret result.

(** The second block: closing the thread handle. *)
Definition Thread_Join_close (this : Thread) (result : Result) : M Result :=
  if Result_eqb result Success then
    closed <- CloseHandle (hThread this) ;;
    if closed =? 0 then
      DD_WARN_REASON "Closing the thread handle failed!" ;;
      ret Error
    else ret result
  else ret result.

Definition Thread_Join (this : Thread) (timeoutInMs : Z) : M (Result * Thread) :=
  let result := if IsJoinable this then Success else Error in
  result <- Thread_Join_wait this timeoutInMs result ;;
  result <- Thread_Join_close this result ;;
  let this' := if Result_eqb result Success then Reset this else this in
  DD_WARN (negb (Result_eqb result Error)) "result != Result::Error" ;;
  ret (result, this').

(** The array length [kThreadNameMaxLength] is declared in a header that is
    not part of the file: it is a parameter here. *)
Variable kThreadNameMaxLength : nat.

(** The multibyte decoder of the locale the process runs in. *)
Variable mbtowc : Decoder.

(** The local conversion of [Thread::SetNameRaw]: the zeroed array
    [wThreadName] after [mbstowcs], and [converted]. *)
Definition SetNameRaw_convert (pThreadName : string) : list Z * Z :=
  let wThreadName := repeat 0 kThreadNameMaxLength in
  let len := Nat.min kThreadNameMaxLength (strlen pThreadName) in
  mbstowcs mbtowc wThreadName pThreadName len.

Definition Thread_SetNameRaw (this : Thread) (pThreadName : string) : M Result :=
  hModule <- GetModuleHandle "kernel32.dll" ;;
  if negb (hModule =? NULL) then
    pfnSetThreadDescription <- GetProcAddress hModule "SetThreadDescription" ;;
    if negb (pfnSetThreadDescription =? NULL) then
      let (wThreadName, converted) := SetNameRaw_convert pThreadName in
      hResult <-
        (if converted <? Z.of_nat kThreadNameMaxLength then
           syscall (SysSetThreadDescription pfnSetThreadDescription
                      (hThread this) (wcs_of wThreadName))
         else ret E_FAIL) ;;
      ret (if SUCCEEDED hResult then Success else Error)
    else ret Unavailable
  else ret Unavailable.

(** ** AtomicLock *)

Definition AtomicLock_Unlock (this : AtomicLock) : M AtomicLock :=
  let (initial, word) := InterlockedCompareExchangeRelease (m_lock this) 0 1 in
  (if initial =? 0 then
     DD_ASSERT_REASON "Tried to unlock an already unlocked AtomicLock"
   else ret tt) ;;
  ret {| m_lock := word |}.

(** ** Mkdir *)

(** [pDir] is a pointer to a C string: [None] is the null pointer.  The last
    error is kept in an [int]. *)
Definition Mkdir (pDir : option string) : M Result :=
  match pDir with
  | Some dir =>
      created <- CreateDirectory dir ;;
      if negb (created =? 0) then ret Success
      else
        lastError <- GetLastError ;;
        let err := to_int32 lastError in
        if err =? ERROR_ALREADY_EXISTS then ret Success
        else ret FileIoError
  | None => ret InvalidParameter
  end.

(** ** Runs of a client *)

(** The status the system returns to the wait call of [WaitObject]. *)
Definition WaitObject_status (hObject : HANDLE) (millisecTimeout : Z) (h : Trace)
  : Z :=
  os_returns os
    (h ++ snd (DD_ASSERT (negb (hObject =? NULL)) "hObject != NULL" h))
    (SysWaitForSingleObject hObject millisecTimeout).

Definition Thread_apply (this : Thread) (op : ThreadOp) : M (Result * Thread) :=
  match op with
  | OpStart pFnThreadFunc pThreadParameter =>
      Thread_Start this pFnThreadFunc pThreadParameter
  | OpJoin timeoutInMs => Thread_Join this timeoutInMs
  end.

(** A sequence of calls on one object: the log of results and the object
    at the end. *)
Fixpoint Thread_run (this : Thread) (ops : list ThreadOp)
  : M (list (ThreadOp * Result) * Thread) :=
  match ops with
  | [] => ret ([], this)
  | op :: rest =>
      r <- Thread_apply this op ;;
      r' <- Thread_run (snd r) rest ;;
      ret ((op, fst r) :: fst r', snd r')
  end.

End Platform.

(** * The rest of the platform layer *)

(** ** Clients of an atomic variable *)

(** The four operations on an [Atomic], and on an [Atomic64]. *)
Inductive AtomicOp : Type :=
| OpIncrement
| OpAdd (num : Z)
| OpDecrement
| OpSubtract (num : Z).

Definition Atomic_apply (pVariable : Z) (op : AtomicOp) : Z * Z :=
  match op with
  | OpIncrement => AtomicIncrement pVariable
  | OpAdd num => AtomicAdd pVariable num
  | OpDecrement => AtomicDecrement pVariable
  | OpSubtract num => AtomicSubtract pVariable num
  end.

Definition Atomic64_apply (pVariable : Z) (op : AtomicOp) : Z * Z :=
  match op with
  | OpIncrement => AtomicIncrement64 pVariable
  | OpAdd num => AtomicAdd64 pVariable num
  | OpDecrement => AtomicDecrement64 pVariable
  | OpSubtract num => AtomicSubtract64 pVariable num
  end.

(** Each operation is one indivisible step, so what any number of threads
    do to one variable is a sequence of operations: the cell at the end. *)
Fixpoint Atomic_run (pVariable : Z) (ops : list AtomicOp) : Z :=
  match ops with
  | [] => pVariable
  | op :: rest => Atomic_run (snd (Atomic_apply pVariable op)) rest
  end.

Fixpoint Atomic64_run (pVariable : Z) (ops : list AtomicOp) : Z :=
  match ops with
  | [] => pVariable
  | op :: rest => Atomic64_run (snd (Atomic64_apply pVariable op)) rest
  end.

(** What an operation adds, as a mathematical integer. *)
Definition Atomic_delta (op : AtomicOp) : Z :=
  match op with
  | OpIncrement => 1
  | OpAdd num => num
  | OpDecrement => - 1
  | OpSubtract num => - num
  end.

Definition Atomic_total (ops : list AtomicOp) : Z :=
  fold_right (fun op acc => Atomic_delta op + acc) 0 ops.

(** ** AtomicLock::Lock and Windows::AcquireFastLock *)

(** The two loops of [AtomicLock::Lock] have two places where the lock word
    is accessed: the compare-exchange of the outer loop's test and the read
    of the inner loop's test. *)
Inductive LockPc : Type :=
| LockAtExchange
| LockAtSpin.

(** The lock word is shared: before each access of this thread the other
    threads may have changed it.  [others] gives, access by access, what
    they did to the word, the identity when they did nothing; the run ends
    with [None] when the accesses it covers are used up before [Lock]
    returns, and with the word at return otherwise. *)
Fixpoint AtomicLock_Lock_run (others : list (Z -> Z)) (pc : LockPc) (word : Z)
  : option Z :=
  match others with
  | [] => None
  | other :: rest =>
      let word := other word in
      match pc with
      | LockAtExchange =>
          let (initial, word') := InterlockedCompareExchangeAcquire word 1 0 in
          if initial =? 1 then AtomicLock_Lock_run rest LockAtSpin word'
          else Some word'
      | LockAtSpin =>
          if negb (word =? 0) then AtomicLock_Lock_run rest LockAtSpin word
          else AtomicLock_Lock_run rest LockAtExchange word
      end
  end.

Definition AtomicLock_Lock (others : list (Z -> Z)) (this : AtomicLock)
  : option AtomicLock :=
  option_map Build_AtomicLock
    (AtomicLock_Lock_run others LockAtExchange (m_lock this)).

(** [Windows::AcquireFastLock] is the same two loops on [*mutex], followed
    by [return Result::Success]. *)
Definition AcquireFastLock (others : list (Z -> Z)) (mutex : Z)
  : option (Result * Z) :=
  option_map (fun word => (Success, word))
    (AtomicLock_Lock_run others LockAtExchange mutex).

(** What another thread does to the word when it unlocks, and when it does
    nothing. *)
Definition other_unlocks : Z -> Z := fun _ => 0.
Definition other_idle : Z -> Z := fun word => word.

(** ** Vsnprintf *)

(** [Platform::Vsnprintf] hands its arguments to [vsnprintf] of the C
    runtime; [returned] is what that call returns, an [int]. *)
Definition Vsnprintf (returned : Z) : Z :=
  let ret := to_int32 returned in
  if 0 <=? ret then to_int32 (ret + 1) else ret.

Definition INT32_MAX : Z := 2 ^ 31 - 1.

(** ** Shared semaphores *)

Definition WaitSharedSemaphore (os : OS) (pSemaphore : HANDLE)
  (millisecTimeout : Z) : M Result :=
  WaitObject os pSemaphore millisecTimeout.

Definition CloseSharedSemaphore (os : OS) (pSemaphore : HANDLE) : M unit :=
  if negb (pSemaphore =? NULL) then
    CloseHandle os pSemaphore ;; ret tt
  else ret tt.

(** [Semaphore::~Semaphore]. *)
Definition Semaphore_destroy (os : OS) (this : Semaphore) : M unit :=
  CloseSharedSemaphore os (m_semaphore this).

(** [Event::~Event]. *)
Definition Event_destroy (os : OS) (this : Event) : M unit :=
  CloseHandle os (m_event this) ;; ret tt.

(** ** More observations on traces *)

Definition is_close (e : Effect) : bool :=
  match e with
  | EvCall (SysCloseHandle _) _ => true
  | _ => false
  end.

Definition is_wait (e : Effect) : bool :=
  match e with
  | EvCall (SysWaitForSingleObject _ _) _ => true
  | _ => false
  end.

Definition is_last_error (e : Effect) : bool :=
  match e with
  | EvCall SysGetLastError _ => true
  | _ => false
  end.

Definition is_diag (e : Effect) : bool :=
  match e with
  | EvDiag _ => true
  | EvCall _ _ => false
  end.

(** The wide characters of a string in the "C" locale. *)
Fixpoint wide_of_string (s : string) : list Z :=
  match s with
  | EmptyString => []
  | String c rest => Z.of_N (N_of_ascii c) :: wide_of_string rest
  end.

(** A C string holds no zero byte before its end. *)
Fixpoint no_nul (s : string) : bool :=
  match s with
  | EmptyString => true
  | String c rest => negb (N.eqb (N_of_ascii c) 0) && no_nul rest
  end.

(** ** Spin lock discipline *)

(** What the other threads do keeps the lock word [0] or [1]. *)
Definition keeps_01 (other : Z -> Z) : Prop :=
  forall word : Z, word = 0 \/ word = 1 -> other word = 0 \/ other word = 1.

(** ** Process handles, libraries and mutexes *)

(** The entry points that the functions below call are not among [OsCall];
    they have a system of their own, built the same way.  Besides what it
    returns, a call may write through a pointer it is given: [written] is
    what the variable behind that pointer holds after the call. *)
Module Host.

Inductive Call : Type :=
| OpenProcess (dwDesiredAccess bInheritHandle dwProcessId : Z)
| GetCurrentProcess
| DuplicateHandle (hSourceProcessHandle hSourceHandle hTargetProcessHandle
                   dwDesiredAccess bInheritHandle dwOptions : Z)
| CloseHandle (hObject : HANDLE)
| GetModuleHandleExA (dwFlags : Z) (lpModuleName : string)
| LoadLibraryA (lpLibFileName : string)
| FreeLibrary (hLibModule : HANDLE)
| GetProcAddress (hModule : HANDLE) (lpProcName : string)
| InitializeCriticalSection (lpCriticalSection : Z)
| DeleteCriticalSection (lpCriticalSection : Z)
| EnterCriticalSection (lpCriticalSection : Z)
| LeaveCriticalSection (lpCriticalSection : Z).

Record Reply : Type := { returned : Z; written : Z }.

Inductive Effect : Type :=
| Called (c : Call) (r : Reply)
| Logged (d : Diag).

Definition Trace := list Effect.

Definition System := Trace -> Call -> Reply.

(** The reply read at the C types of the call: handles and pointers for the
    calls that return or write one, [BOOL] otherwise. *)
Definition reply_at (c : Call) (raw : Reply) : Reply :=
  match c with
  | OpenProcess _ _ _ | GetCurrentProcess | LoadLibraryA _ | GetProcAddress _ _ =>
      {| returned := to_ptr (returned raw); written := 0 |}
  | DuplicateHandle _ _ _ _ _ _ | GetModuleHandleExA _ _ =>
      {| returned := to_int32 (returned raw); written := to_ptr (written raw) |}
  | CloseHandle _ | FreeLibrary _ =>
      {| returned := to_int32 (returned raw); written := 0 |}
  | InitializeCriticalSection _ | DeleteCriticalSection _
  | EnterCriticalSection _ | LeaveCriticalSection _ =>
      {| returned := 0; written := 0 |}
  end.

Definition replies (sys : System) (h : Trace) (c : Call) : Reply :=
  reply_at c (sys h c).

Definition Run (A : Type) : Type := Trace -> A * Trace.

Definition ret {A : Type} (a : A) : Run A := fun _ => (a, []).

Definition bind {A B : Type} (m : Run A) (k : A -> Run B) : Run B :=
  fun h =>
    let (a, e1) := m h in
    let (b, e2) := k a (h ++ e1) in
    (b, e1 ++ e2).

Notation "x <~ m ;; k" := (bind m (fun x => k))
  (at level 61, m at next level, right associativity).
Notation "m ;;~ k" := (bind m (fun _ => k))
  (at level 61, right associativity).

Definition call (sys : System) (c : Call) : Run Reply :=
  fun h => let r := replies sys h c in (r, [Called c r]).

Definition emit (d : Diag) : Run unit := fun _ => (tt, [Logged d]).

(** The diagnostic macros, as above. *)
Definition DD_ASSERT (statement : bool) (text : string) : Run unit :=
  if statement then ret tt else emit (DiagAssert text).

Definition DD_WARN (statement : bool) (text : string) : Run unit :=
  if statement then ret tt else emit (DiagWarn text).

(** Constants of the Windows SDK headers. *)
Definition PROCESS_ALL_ACCESS : Z := 2097151.
Definition EVENT_ALL_ACCESS : Z := 2031619.
Definition TRUE : Z := 1.
Definition FALSE : Z := 0.

(** *** Handles of another process *)

Definition CopyHandleFromProcess (sys : System) (processId : Z) (hObject : HANDLE)
  : Run HANDLE :=
  DD_ASSERT (negb (hObject =? NULL)) "hObject != NULL" ;;~
  let outputObject := NULL in
  opened <~ call sys (OpenProcess PROCESS_ALL_ACCESS TRUE (to_uint32 processId)) ;;
  let hProcess := returned opened in
  outputObject <~
    (if negb (hProcess =? NULL) then
       current <~ call sys GetCurrentProcess ;;
       duplicated <~
         call sys (DuplicateHandle hProcess hObject (returned current)
                     EVENT_ALL_ACCESS TRUE 0) ;;
       call sys (CloseHandle hProcess) ;;~
       ret (written duplicated)
     else ret outputObject) ;;
  DD_WARN (negb (outputObject =? NULL)) "outputObject != NULL" ;;~
  ret outputObject.

(** [Windows::CopySemaphoreFromProcess]. *)
Definition CopySemaphoreFromProcess (sys : System) (processId : Z) (hObject : HANDLE)
  : Run HANDLE :=
  CopyHandleFromProcess sys processId hObject.


(** [Windows::CloseSharedBuffer]. *)
Definition CloseSharedBuffer (sys : System) (hSharedBuffer : HANDLE) : Run unit :=
  if negb (hSharedBuffer =? NULL) then
    closed <~ call sys (CloseHandle hSharedBuffer) ;;
    DD_WARN (returned closed =? TRUE) "result == TRUE"
  else ret tt.

(** *** Library *)

Record Library : Type := { m_hLib : HANDLE }.

Definition Library_Load (sys : System) (this : Library) (pLibraryName : string)
  : Run (Result * Library) :=
  let Flags := 0 in
  found <~ call sys (GetModuleHandleExA Flags pLibraryName) ;;
  let this := {| m_hLib := written found |} in
  if returned found =? FALSE then
    loaded <~ call sys (LoadLibraryA pLibraryName) ;;
    let this := {| m_hLib := returned loaded |} in
    if m_hLib this =? NULL then ret (FileNotFound, this)
    else ret (Success, this)
  else ret (Success, this).

Definition Library_Close (sys : System) (this : Library) : Run Library :=
  if negb (m_hLib this =? NULL) then
    call sys (FreeLibrary (m_hLib this)) ;;~
    ret {| m_hLib := NULL |}
  else ret this.

Definition Library_GetFunctionHelper (sys : System) (this : Library)
  (pName : string) : Run Z :=
  DD_ASSERT (negb (m_hLib this =? NULL)) "m_hLib != nullptr" ;;~
  found <~ call sys (GetProcAddress (m_hLib this) pName) ;;
  ret (returned found).

(** *** Mutex *)

(** The storage of a mutex is declared in a header that is not part of the
    file: the critical section, an object of the system known here by its
    address, and [lockCount], the counter that the debug build keeps and
    that the constructor zeroes. *)
Record Mutex : Type := { criticalSection : Z; lockCount : Z }.



Definition Mutex_Lock (sys : System) (debug : bool) (this : Mutex) : Run Mutex :=
  call sys (EnterCriticalSection (criticalSection this)) ;;~
  if debug then
    let (count, cell) := AtomicIncrement (lockCount this) in
    DD_ASSERT (count =? 1) "count == 1" ;;~
    ret {| criticalSection := criticalSection this; lockCount := cell |}
  else ret this.

Definition Mutex_Unlock (sys : System) (debug : bool) (this : Mutex) : Run Mutex :=
  this <~
    (if debug then
       ret {| criticalSection := criticalSection this;
              lockCount := snd (AtomicDecrement (lockCount this)) |}
     else ret this) ;;
  call sys (LeaveCriticalSection (criticalSection this)) ;;~
  ret this.

(** Locking and unlocking, in any order an owner may write them. *)
Inductive MutexOp : Type :=
| MutexLock
| MutexUnlock.

Definition Mutex_apply (sys : System) (debug : bool) (this : Mutex) (op : MutexOp)
  : Run Mutex :=
  match op with
  | MutexLock => Mutex_Lock sys debug this
  | MutexUnlock => Mutex_Unlock sys debug this
  end.

Fixpoint Mutex_run (sys : System) (debug : bool) (this : Mutex)
  (ops : list MutexOp) : Run Mutex :=
  match ops with
  | [] => ret this
  | op :: rest =>
      this' <~ Mutex_apply sys debug this op ;;
      Mutex_run sys debug this' rest
  end.

(** How many locks an owner holds after [ops], having held [held]. *)
Fixpoint Mutex_depth (held : Z) (ops : list MutexOp) : Z :=
  match ops with
  | [] => held
  | MutexLock :: rest => Mutex_depth (held + 1) rest
  | MutexUnlock :: rest => Mutex_depth (held - 1) rest
  end.

(** Whether [ops] locks while a lock is held, or while more were released
    than taken. *)
Fixpoint Mutex_misuse (held : Z) (ops : list MutexOp) : bool :=
  match ops with
  | [] => false
  | MutexLock :: rest => negb (held =? 0) || Mutex_misuse (held + 1) rest
  | MutexUnlock :: rest => Mutex_misuse (held - 1) rest
  end.

Definition call_of (cs : Z) (op : MutexOp) : Call :=
  match op with
  | MutexLock => EnterCriticalSection cs
  | MutexUnlock => LeaveCriticalSection cs
  end.

Definition is_assertion (e : Effect) : bool :=
  match e with
  | Logged (DiagAssert _) => true
  | _ => false
  end.

Definition is_logged (e : Effect) : bool :=
  match e with
  | Logged _ => true
  | Called _ _ => false
  end.

Definition is_free (e : Effect) : bool :=
  match e with
  | Called (FreeLibrary _) _ => true
  | _ => false
  end.

Definition is_called (e : Effect) : bool :=
  match e with
  | Called _ _ => true
  | Logged _ => false
  end.

(** The calls of a run, without what they returned. *)
Fixpoint calls_of (ev : Trace) : list Call :=
  match ev with
  | [] => []
  | Called c _ :: rest => c :: calls_of rest
  | Logged _ :: rest => calls_of rest
  end.

(** A system on which every call succeeds with handle or value [1]. *)
Definition sys_always (r : Z) (w : Z) : System :=
  fun _ _ => {| returned := r; written := w |}.

End Host.

(** * Properties *)

Arguments to_uint32 : simpl never.
Arguments to_int32 : simpl never.
Arguments to_ptr : simpl never.
Arguments os_returns : simpl never.

(** Running a computation: the macros first, then the monad. *)
Ltac run_M :=
  unfold DD_PRINT, DD_WARN, DD_WARN_REASON, DD_ASSERT, DD_ASSERT_REASON,
    DD_ASSERT_ALWAYS;
  unfold bind, ret, emit, syscall; cbn [fst snd app].

Ltac break_if :=
  match goal with
  | |- context [if ?c then _ else _] => destruct c eqn:?
  end.

Ltac unfold_platform :=
  unfold Thread_Join, Thread_Join_wait, Thread_Join_close, Thread_Start,
    Event_Wait, Semaphore_Wait, WaitObject, WaitObject_switch, Mkdir,
    AtomicLock_Unlock, WaitForSingleObject, GetLastError, CloseHandle,
    CreateDirectory, GetModuleHandle, GetProcAddress.

(** ** Two's-complement arithmetic *)

Lemma pow2_pos (w : Z) : 0 < w -> 0 < 2 ^ w.
Proof. intros Hw. apply Z.pow_pos_nonneg; lia. Qed.

Lemma pow2_half (w : Z) : 0 < w -> 2 ^ w = 2 * 2 ^ (w - 1).
Proof.
  intros Hw. replace w with (Z.succ (w - 1)) at 1 by lia.
  apply Z.pow_succ_r. lia.
Qed.

Lemma wrap_signed_congr (w a b : Z) :
  0 < w -> (a - b) mod 2 ^ w = 0 -> wrap_signed w a = wrap_signed w b.
Proof.
  intros Hw H. unfold wrap_signed. f_equal.
  pose proof (pow2_pos w Hw) as Hp.
  apply Z.mod_divide in H; [|lia]. destruct H as [k Hk].
  replace (a + 2 ^ (w - 1)) with (b + 2 ^ (w - 1) + k * 2 ^ w) by lia.
  apply Z_mod_plus_full.
Qed.

Lemma wrap_signed_divide (w a : Z) :
  0 < w -> (2 ^ w | wrap_signed w a - a).
Proof.
  intros Hw. unfold wrap_signed.
  exists (- ((a + 2 ^ (w - 1)) / 2 ^ w)).
  pose proof (pow2_pos w Hw) as Hp.
  pose proof (Z.div_mod (a + 2 ^ (w - 1)) (2 ^ w)) as Hdm. lia.
Qed.

Lemma wrap_signed_range (w a : Z) :
  0 < w -> - 2 ^ (w - 1) <= wrap_signed w a < 2 ^ (w - 1).
Proof.
  intros Hw. unfold wrap_signed.
  pose proof (pow2_pos w Hw) as Hp. pose proof (pow2_half w Hw) as Hh.
  pose proof (Z.mod_pos_bound (a + 2 ^ (w - 1)) (2 ^ w) Hp). lia.
Qed.

Lemma wrap_signed_small (w a : Z) :
  0 < w -> - 2 ^ (w - 1) <= a < 2 ^ (w - 1) -> wrap_signed w a = a.
Proof.
  intros Hw Ha. unfold wrap_signed. pose proof (pow2_half w Hw) as Hh.
  rewrite Z.mod_small by lia. lia.
Qed.

Lemma wrap_signed_idem (w a : Z) :
  0 < w -> wrap_signed w (wrap_signed w a) = wrap_signed w a.
Proof.
  intros Hw. apply wrap_signed_small; [lia | apply wrap_signed_range; lia].
Qed.

(** Adding the wrapped negation of a wrapped operand is subtracting it. *)
Lemma wrap_signed_sub_negated (w v n : Z) :
  0 < w ->
  wrap_signed w (v + wrap_signed w (- wrap_signed w n)) = wrap_signed w (v - n).
Proof.
  intros Hw. apply wrap_signed_congr; [lia|].
  pose proof (pow2_pos w Hw) as Hp.
  apply Z.mod_divide; [lia|].
  replace (v + wrap_signed w (- wrap_signed w n) - (v - n))
    with ((wrap_signed w (- wrap_signed w n) - - wrap_signed w n)
          + - (wrap_signed w n - n)) by lia.
  apply Z.divide_add_r.
  - apply wrap_signed_divide; lia.
  - apply Z.divide_opp_r, wrap_signed_divide; lia.
Qed.

Lemma wrap_signed_add_cast (w v n : Z) :
  0 < w ->
  wrap_signed w (v + wrap_signed w n) = wrap_signed w (v + n).
Proof.
  intros Hw. apply wrap_signed_congr; [lia|].
  pose proof (pow2_pos w Hw) as Hp.
  apply Z.mod_divide; [lia|].
  replace (v + wrap_signed w n - (v + n)) with (wrap_signed w n - n) by lia.
  apply wrap_signed_divide; lia.
Qed.

Lemma to_uint32_range (z : Z) : 0 <= to_uint32 z < 2 ^ 32.
Proof. unfold to_uint32, wrap_unsigned. apply Z.mod_pos_bound. reflexivity. Qed.

(** Keeping a [DWORD] error code in an [int] does not change whether it is
    [ERROR_ALREADY_EXISTS]. *)
Lemma to_int32_already_exists (e : Z) :
  0 <= e < 2 ^ 32 ->
  (to_int32 e = ERROR_ALREADY_EXISTS <-> e = ERROR_ALREADY_EXISTS).
Proof.
  intros He. unfold to_int32, wrap_signed, ERROR_ALREADY_EXISTS.
  change (2 ^ (32 - 1)) with 2147483648. change (2 ^ 32) with 4294967296 in *.
  destruct (Z_lt_dec e 2147483648).
  - rewrite Z.mod_small by lia. lia.
  - replace (e + 2147483648) with ((e - 2147483648) + 1 * 4294967296) by lia.
    rewrite Z_mod_plus_full, Z.mod_small by lia. lia.
Qed.

(** ** Atomic subtraction *)

(** C6. For the 32-bit and the 64-bit width, [AtomicSubtract] of an operand
    [n] stores and returns what [AtomicAdd] of [- n] stores and returns, the
    value after the operation, [v - n] wrapped to the width; at the minimum
    of the width the negated operand wraps to the minimum itself, and
    subtracting it is adding it. *)
Theorem AtomicSubtract_is_add_of_negation (v n : Z) :
  (AtomicSubtract v n = AtomicAdd v (- n)
   /\ AtomicSubtract v n = (to_int32 (v - n), to_int32 (v - n))
   /\ AtomicSubtract v INT32_MIN = AtomicAdd v INT32_MIN
   /\ to_int32 (- INT32_MIN) = INT32_MIN)
  /\
  (AtomicSubtract64 v n = AtomicAdd64 v (- n)
   /\ AtomicSubtract64 v n = (to_int64 (v - n), to_int64 (v - n))
   /\ AtomicSubtract64 v INT64_MIN = AtomicAdd64 v INT64_MIN
   /\ to_int64 (- INT64_MIN) = INT64_MIN).
Proof.
  unfold AtomicSubtract, AtomicAdd, AtomicSubtract64, AtomicAdd64,
    cast_result, InterlockedAdd, InterlockedAdd64, to_int32, to_int64.
  cbn [fst snd].
  repeat split;
    rewrite ?wrap_signed_idem, ?wrap_signed_sub_negated, ?wrap_signed_add_cast
      by lia;
    try reflexivity.
  all: f_equal; apply wrap_signed_congr; [lia | reflexivity].
Qed.

(** ** WaitObject *)

Lemma WaitObject_switch_result (os : OS) (status : Z) (h : Trace) :
  fst (WaitObject_switch os status h) =
    if status =? WAIT_OBJECT_0 then Success
    else if status =? WAIT_TIMEOUT then NotReady else Error.
Proof.
  unfold WaitObject_switch.
  destruct (status =? WAIT_OBJECT_0); [reflexivity|].
  destruct (status =? WAIT_TIMEOUT); [reflexivity|].
  destruct (status =? WAIT_FAILED); [|reflexivity].
  unfold GetLastError. run_M.
  destruct (os_returns os h SysGetLastError =? ERROR_INVALID_HANDLE); reflexivity.
Qed.

Lemma WaitObject_result (os : OS) (hObject : HANDLE) (ms : Z) (h : Trace) :
  fst (WaitObject os hObject ms h) =
    let status := WaitObject_status os hObject ms h in
    if status =? WAIT_OBJECT_0 then Success
    else if status =? WAIT_TIMEOUT then NotReady else Error.
Proof.
  unfold WaitObject, WaitObject_status, WaitForSingleObject.
  unfold bind at 1.
  destruct (DD_ASSERT (negb (hObject =? NULL)) "hObject != NULL" h) as [u e0].
  unfold bind at 1. unfold syscall at 1. cbn [snd].
  unfold bind at 1.
  set (status := os_returns os (h ++ e0) (SysWaitForSingleObject hObject ms)).
  pose proof (WaitObject_switch_result os status
                ((h ++ e0) ++ [EvCall (SysWaitForSingleObject hObject ms) status]))
    as Hs.
  destruct (WaitObject_switch os status _) as [r e1]. cbn [fst] in Hs. subst r.
  unfold bind. destruct (DD_WARN _ _ _) as [u' e2]. reflexivity.
Qed.

Lemma WaitObject_waits (os : OS) (hObject : HANDLE) (ms : Z) (h : Trace) :
  In (EvCall (SysWaitForSingleObject hObject ms) (WaitObject_status os hObject ms h))
     (snd (WaitObject os hObject ms h)).
Proof.
  unfold WaitObject_status. unfold_platform. run_M.
  repeat (break_if; run_M); cbn [In]; rewrite ?app_nil_r; auto.
Qed.

Lemma released_app (a b : Trace) :
  released (a ++ b) = (released a + released b)%nat.
Proof. unfold released. rewrite filter_app, length_app. reflexivity. Qed.

Lemma WaitObject_releases_nothing (os : OS) (hObject : HANDLE) (ms : Z) (h : Trace) :
  released (snd (WaitObject os hObject ms h)) = 0%nat.
Proof.
  unfold_platform. run_M.
  repeat (break_if; run_M); reflexivity.
Qed.

(** C4. [WaitObject] returns [Success] exactly when the status of the wait
    is [WAIT_OBJECT_0], [NotReady] exactly when it is [WAIT_TIMEOUT], and
    [Error] for every other status, [WAIT_FAILED] among them; the status is
    the one the system returned to its one wait on the object; [Event::Wait]
    and [Semaphore::Wait] are this computation on their handle. *)
Theorem WaitObject_three_way
  (os : OS) (hObject : HANDLE) (millisecTimeout : Z) (h : Trace) :
  let status := WaitObject_status os hObject millisecTimeout h in
  let result := fst (WaitObject os hObject millisecTimeout h) in
  (result = Success <-> status = WAIT_OBJECT_0)
  /\ (result = NotReady <-> status = WAIT_TIMEOUT)
  /\ (result = Error <-> status <> WAIT_OBJECT_0 /\ status <> WAIT_TIMEOUT)
  /\ (status = WAIT_FAILED -> result = Error)
  /\ In (EvCall (SysWaitForSingleObject hObject millisecTimeout) status)
        (snd (WaitObject os hObject millisecTimeout h))
  /\ (forall this : Event,
        Event_Wait os this millisecTimeout h =
          WaitObject os (m_event this) millisecTimeout h)
  /\ (forall this : Semaphore,
        Semaphore_Wait os this millisecTimeout h =
          WaitObject os (m_semaphore this) millisecTimeout h).
Proof.
  cbv zeta. rewrite WaitObject_result. cbv zeta.
  set (status := WaitObject_status os hObject millisecTimeout h).
  repeat match goal with |- _ /\ _ => split end.
  5: apply WaitObject_waits.
  5, 6: reflexivity.
  all: destruct (Z.eqb_spec status WAIT_OBJECT_0) as [H0|H0];
    [|destruct (Z.eqb_spec status WAIT_TIMEOUT) as [H1|H1]];
    unfold WAIT_OBJECT_0, WAIT_TIMEOUT, WAIT_FAILED in *;
    repeat split; intros; try discriminate; try congruence; try lia; try tauto.
Qed.

(** ** Thread::Start *)

Lemma Thread_Start_refused (os : OS) (this : Thread) (fn param : Z) (h : Trace) :
  hThread this <> NULL \/ fn = NULL ->
  Thread_Start os this fn param h = ((Error, this), []).
Proof.
  intros H. unfold Thread_Start.
  destruct (Z.eqb_spec (hThread this) NULL) as [Hh|Hh];
    destruct (Z.eqb_spec fn NULL) as [Hf|Hf]; cbn [andb negb];
    try reflexivity.
  destruct H; contradiction.
Qed.

Lemma Thread_Start_created (os : OS) (this : Thread) (fn param : Z) (h : Trace) :
  hThread this = NULL -> fn <> NULL ->
  fst (fst (Thread_Start os this fn param h)) =
    if os_returns os h (SysCreateThread fn param) =? NULL then Error else Success.
Proof.
  intros Hh Hf. unfold Thread_Start.
  rewrite Hh. apply Z.eqb_neq in Hf. rewrite Hf. cbn [andb negb Z.eqb NULL].
  run_M. cbn [hThread pFnFunction pParameter onExit].
  destruct (os_returns os h (SysCreateThread fn param) =? NULL); reflexivity.
Qed.

Lemma Thread_Start_handle (os : OS) (this : Thread) (fn param : Z) (h : Trace) :
  hThread this = NULL -> fn <> NULL ->
  hThread (snd (fst (Thread_Start os this fn param h))) =
    os_returns os h (SysCreateThread fn param).
Proof.
  intros Hh Hf. unfold Thread_Start.
  rewrite Hh. apply Z.eqb_neq in Hf. rewrite Hf. cbn [andb negb Z.eqb NULL].
  run_M. cbn [hThread pFnFunction pParameter onExit].
  destruct (os_returns os h (SysCreateThread fn param) =? NULL); reflexivity.
Qed.

(** C1. When the object already holds a handle or the entry function is
    null, [Thread::Start] returns [Error] with the object unchanged and
    without any call to the system, so without creating a thread and
    without waiting; it returns [Success] exactly when the handle was empty,
    the entry function is not null and [CreateThread] returned a handle;
    otherwise it returns [Error]. *)
Theorem Thread_Start_fails_fast
  (os : OS) (this : Thread) (pFnThreadFunc pThreadParameter : Z) (h : Trace) :
  (hThread this <> NULL \/ pFnThreadFunc = NULL ->
     Thread_Start os this pFnThreadFunc pThreadParameter h = ((Error, this), []))
  /\ (fst (fst (Thread_Start os this pFnThreadFunc pThreadParameter h)) = Success
      <->
      hThread this = NULL /\ pFnThreadFunc <> NULL
      /\ os_returns os h (SysCreateThread pFnThreadFunc pThreadParameter) <> NULL)
  /\ (fst (fst (Thread_Start os this pFnThreadFunc pThreadParameter h)) <> Success ->
      fst (fst (Thread_Start os this pFnThreadFunc pThreadParameter h)) = Error).
Proof.
  split; [apply Thread_Start_refused|].
  destruct (Z.eq_dec (hThread this) NULL) as [Hh|Hh];
    [destruct (Z.eq_dec pFnThreadFunc NULL) as [Hf|Hf]|].
  - rewrite (Thread_Start_refused os this pFnThreadFunc pThreadParameter h)
      by (right; exact Hf).
    cbn [fst]. split; [split|]; [discriminate | tauto | reflexivity].
  - rewrite (Thread_Start_created os this pFnThreadFunc pThreadParameter h Hh Hf).
    destruct (Z.eqb_spec
                (os_returns os h (SysCreateThread pFnThreadFunc pThreadParameter))
                NULL) as [Hc|Hc].
    + split; [split|]; [discriminate | tauto | reflexivity].
    + split; [split|]; [tauto | reflexivity | congruence].
  - rewrite (Thread_Start_refused os this pFnThreadFunc pThreadParameter h)
      by (left; exact Hh).
    cbn [fst]. split; [split|]; [discriminate | tauto | reflexivity].
Qed.

(** ** Thread::Join and Thread::IsJoinable *)

Lemma IsJoinable_bound (this : Thread) :
  IsJoinable this = true <-> hThread this <> NULL.
Proof.
  unfold IsJoinable. rewrite negb_true_iff. apply Z.eqb_neq.
Qed.

Lemma IsJoinable_unbound (this : Thread) :
  IsJoinable this = false <-> hThread this = NULL.
Proof.
  unfold IsJoinable. rewrite negb_false_iff. apply Z.eqb_eq.
Qed.

(** [Thread::Join], block by block. *)
Lemma Thread_Join_phases (os : OS) (this : Thread) (ms : Z) (h : Trace) :
  Thread_Join os this ms h =
    let (r1, e1) :=
      Thread_Join_wait os this ms (if IsJoinable this then Success else Error) h in
    let (r2, e2) := Thread_Join_close os this r1 (h ++ e1) in
    ((r2, if Result_eqb r2 Success then Reset this else this),
     e1 ++ e2 ++
       (if Result_eqb r2 Error then [EvDiag (DiagWarn "result != Result::Error")]
        else [])).
Proof.
  unfold Thread_Join. unfold bind at 1.
  destruct (Thread_Join_wait _ _ _ _ _) as [r1 e1].
  unfold bind at 1.
  destruct (Thread_Join_close _ _ _ _) as [r2 e2].
  run_M. destruct r2; cbn; rewrite ?app_nil_r; reflexivity.
Qed.

Lemma Thread_Join_not_joinable (os : OS) (this : Thread) (ms : Z) (h : Trace) :
  hThread this = NULL ->
  Thread_Join os this ms h =
    ((Error, this), [EvDiag (DiagWarn "result != Result::Error")]).
Proof.
  intros Hh. apply IsJoinable_unbound in Hh.
  rewrite Thread_Join_phases, Hh. reflexivity.
Qed.

Lemma Thread_Join_wait_releases_nothing
  (os : OS) (this : Thread) (ms : Z) (r : Result) (h : Trace) :
  released (snd (Thread_Join_wait os this ms r h)) = 0%nat.
Proof.
  unfold Thread_Join_wait. destruct (Result_eqb r Success); [|reflexivity].
  unfold bind.
  pose proof (WaitObject_releases_nothing os (hThread this) 0 h) as H0.
  destruct (WaitObject os (hThread this) 0 h) as [alive e0]. cbn [snd] in H0.
  destruct (Result_eqb alive NotReady).
  - unfold Event_Wait.
    pose proof (WaitObject_releases_nothing os (m_event (onExit this)) ms (h ++ e0))
      as H1.
    destruct (WaitObject os _ ms (h ++ e0)) as [r1 e1]. cbn [snd] in *.
    rewrite released_app. lia.
  - unfold ret. cbn [snd]. rewrite app_nil_r. exact H0.
Qed.

(** A [Join] either releases the handle once, returns [Success] and resets
    the object, or releases nothing, does not return [Success] and leaves
    the object as it was. *)
Lemma Thread_Join_release_or_keep (os : OS) (this : Thread) (ms : Z) (h : Trace) :
  let run := Thread_Join os this ms h in
  (fst (fst run) = Success /\ snd (fst run) = Reset this
   /\ released (snd run) = 1%nat)
  \/ (fst (fst run) <> Success /\ snd (fst run) = this
      /\ released (snd run) = 0%nat).
Proof.
  cbv zeta. rewrite Thread_Join_phases.
  pose proof (Thread_Join_wait_releases_nothing os this ms
                (if IsJoinable this then Success else Error) h) as Hw.
  destruct (Thread_Join_wait _ _ _ _ _) as [r1 e1]. cbn [snd] in Hw.
  unfold Thread_Join_close, CloseHandle.
  destruct (Result_eqb r1 Success) eqn:E1.
  - run_M.
    destruct (os_returns os (h ++ e1) (SysCloseHandle (hThread this)) =? 0) eqn:Ec.
    + right. cbn [fst snd Result_eqb]. rewrite !released_app, Hw.
      unfold released. cbn [filter is_release]. rewrite Ec.
      repeat split; cbn; congruence.
    + left. destruct r1; try discriminate. cbn [fst snd Result_eqb].
      rewrite !released_app, Hw. unfold released. cbn [filter is_release].
      rewrite Ec. repeat split.
  - right. run_M.
    destruct r1; try discriminate; cbn [fst snd Result_eqb];
      rewrite !released_app, Hw; repeat split; congruence.
Qed.

Lemma Thread_Join_failed_close
  (os : OS) (this : Thread) (ms : Z) (h ev1 : Trace) :
  IsJoinable this = true ->
  Thread_Join_wait os this ms Success h = (Success, ev1) ->
  os_returns os (h ++ ev1) (SysCloseHandle (hThread this)) = 0 ->
  Thread_Join os this ms h =
    ((Error, this),
     ev1 ++ [EvCall (SysCloseHandle (hThread this)) 0;
             EvDiag (DiagWarn "Closing the thread handle failed!");
             EvDiag (DiagWarn "result != Result::Error")]).
Proof.
  intros Hj Hw Hc. rewrite Thread_Join_phases, Hj, Hw.
  unfold Thread_Join_close, CloseHandle. cbn [Result_eqb]. run_M.
  rewrite Hc. reflexivity.
Qed.

(** ** Runs of a client *)

Lemma handle_bound_cons (bound : bool) (op : ThreadOp) (r : Result)
  (log : list (ThreadOp * Result)) :
  handle_bound bound ((op, r) :: log) =
    handle_bound (handle_bound bound [(op, r)]) log.
Proof. destruct op, r; reflexivity. Qed.

Lemma Thread_run_cons
  (os : OS) (this : Thread) (op : ThreadOp) (rest : list ThreadOp) (h : Trace) :
  Thread_run os this (op :: rest) h =
    let step := Thread_apply os this op h in
    let tail := Thread_run os (snd (fst step)) rest (h ++ snd step) in
    (((op, fst (fst step)) :: fst (fst tail), snd (fst tail)),
     snd step ++ snd tail).
Proof.
  cbn [Thread_run]. unfold bind, ret.
  destruct (Thread_apply os this op h) as [[r this'] e1]. cbn [fst snd].
  destruct (Thread_run os this' rest (h ++ e1)) as [[log this''] e2].
  cbn [fst snd]. rewrite app_nil_r. reflexivity.
Qed.

(** One call keeps [IsJoinable] in step with the bookkeeping. *)
Lemma Thread_apply_bound (os : OS) (this : Thread) (op : ThreadOp) (h : Trace) :
  IsJoinable (snd (fst (Thread_apply os this op h))) =
    handle_bound (IsJoinable this) [(op, fst (fst (Thread_apply os this op h)))].
Proof.
  destruct op as [fn param | ms]; cbn [Thread_apply].
  - destruct (Z.eq_dec (hThread this) NULL) as [Hh|Hh];
      [destruct (Z.eq_dec fn NULL) as [Hf|Hf]|].
    + rewrite Thread_Start_refused by (right; exact Hf). reflexivity.
    + pose proof (Thread_Start_created os this fn param h Hh Hf) as Hr.
      pose proof (Thread_Start_handle os this fn param h Hh Hf) as Hn.
      destruct (Thread_Start os this fn param h) as [[r this'] ev].
      cbn [fst snd] in *. subst r.
      destruct (Z.eqb_spec (os_returns os h (SysCreateThread fn param)) NULL)
        as [Hc|Hc]; cbn [handle_bound].
      * rewrite (proj2 (IsJoinable_unbound this) Hh).
        apply IsJoinable_unbound. congruence.
      * apply IsJoinable_bound. congruence.
    + rewrite Thread_Start_refused by (left; exact Hh). reflexivity.
  - destruct (Thread_Join_release_or_keep os this ms h)
      as [(Hr & Ht & _) | (Hr & Ht & _)].
    + rewrite Hr, Ht. reflexivity.
    + rewrite Ht. destruct (fst (fst (Thread_Join os this ms h)));
        try reflexivity.
      congruence.
Qed.

Lemma Thread_run_bound (os : OS) (ops : list ThreadOp) :
  forall (this : Thread) (h : Trace),
    IsJoinable (snd (fst (Thread_run os this ops h))) =
      handle_bound (IsJoinable this) (fst (fst (Thread_run os this ops h))).
Proof.
  induction ops as [|op rest IH]; intros this h; [reflexivity|].
  rewrite Thread_run_cons. cbv zeta. cbn [fst snd].
  rewrite handle_bound_cons, <- Thread_apply_bound. apply IH.
Qed.

Lemma joins_unbound_release_nothing (os : OS) (timeouts : list Z) :
  forall (this : Thread) (h : Trace),
    hThread this = NULL ->
    released (snd (Thread_run os this (map OpJoin timeouts) h)) = 0%nat.
Proof.
  induction timeouts as [|ms rest IH]; intros this h Hh; [reflexivity|].
  cbn [map]. rewrite Thread_run_cons. cbv zeta. cbn [fst snd Thread_apply].
  rewrite Thread_Join_not_joinable by exact Hh. cbn [fst snd].
  rewrite released_app, IH by exact Hh. reflexivity.
Qed.

Lemma joins_release_at_most_once (os : OS) (timeouts : list Z) :
  forall (this : Thread) (h : Trace),
    (released (snd (Thread_run os this (map OpJoin timeouts) h)) <= 1)%nat.
Proof.
  induction timeouts as [|ms rest IH]; intros this h; [cbn; lia|].
  cbn [map]. rewrite Thread_run_cons. cbv zeta. cbn [fst snd Thread_apply].
  rewrite released_app.
  destruct (Thread_Join_release_or_keep os this ms h)
    as [(_ & Ht & Hn) | (_ & Ht & Hn)]; rewrite Ht, Hn.
  - rewrite joins_unbound_release_nothing by reflexivity. lia.
  - specialize (IH this (h ++ snd (Thread_Join os this ms h))). lia.
Qed.

(** C2. For every timeout, [Thread::Join] on an object whose handle is empty
    returns [Error], leaves the object as it is and makes no call to the
    system, so it does not wait; [IsJoinable] is true exactly when a handle
    is bound, and along every sequence of [Start] and [Join] calls on a
    newly constructed object that is exactly when a [Start] has succeeded
    and no [Join] has succeeded since. *)
Theorem Thread_Join_unstarted_and_IsJoinable
  (os : OS) (this : Thread) (timeoutInMs : Z) (h : Trace) :
  (hThread this = NULL ->
     Thread_Join os this timeoutInMs h =
       ((Error, this), [EvDiag (DiagWarn "result != Result::Error")])
     /\ calls (snd (Thread_Join os this timeoutInMs h)) = [])
  /\ (IsJoinable this = true <-> hThread this <> NULL)
  /\ (forall (exitEvent : Event) (ops : list ThreadOp),
        IsJoinable (snd (fst (Thread_run os (Thread_new exitEvent) ops h))) =
          handle_bound false
            (fst (fst (Thread_run os (Thread_new exitEvent) ops h)))).
Proof.
  split; [|split].
  - intros Hh. rewrite Thread_Join_not_joinable by exact Hh. split; reflexivity.
  - apply IsJoinable_bound.
  - intros exitEvent ops. apply (Thread_run_bound os ops (Thread_new exitEvent) h).
Qed.

(** C3. When the first block of [Thread::Join] ends with [Success] and
    [CloseHandle] then returns zero, [Join] returns [Error] and the object
    is unchanged: the handle stays bound, [IsJoinable] stays true and
    nothing was released.  The object is reset exactly when [Join] returns
    [Success]; and however many times [Join] is called in a row, the handle
    is released at most once. *)
Theorem Thread_Join_failed_release_keeps_handle
  (os : OS) (this : Thread) (timeoutInMs : Z) (h : Trace) :
  (forall ev1 : Trace,
      IsJoinable this = true ->
      Thread_Join_wait os this timeoutInMs Success h = (Success, ev1) ->
      os_returns os (h ++ ev1) (SysCloseHandle (hThread this)) = 0 ->
      fst (Thread_Join os this timeoutInMs h) = (Error, this)
      /\ IsJoinable (snd (fst (Thread_Join os this timeoutInMs h))) = true
      /\ released (snd (Thread_Join os this timeoutInMs h)) = 0%nat)
  /\ (fst (fst (Thread_Join os this timeoutInMs h)) = Success ->
        snd (fst (Thread_Join os this timeoutInMs h)) = Reset this
        /\ IsJoinable (snd (fst (Thread_Join os this timeoutInMs h))) = false)
  /\ (fst (fst (Thread_Join os this timeoutInMs h)) <> Success ->
        snd (fst (Thread_Join os this timeoutInMs h)) = this)
  /\ (forall timeouts : list Z,
        (released (snd (Thread_run os this (map OpJoin timeouts) h)) <= 1)%nat).
Proof.
  split; [|split; [|split]].
  - intros ev1 Hj Hw Hc.
    rewrite (Thread_Join_failed_close os this timeoutInMs h ev1 Hj Hw Hc).
    cbn [fst snd]. repeat split; [exact Hj|].
    rewrite released_app.
    pose proof (Thread_Join_wait_releases_nothing os this timeoutInMs Success h)
      as H0.
    rewrite Hw in H0. cbn [snd] in H0. rewrite H0. reflexivity.
  - intros Hs.
    destruct (Thread_Join_release_or_keep os this timeoutInMs h)
      as [(_ & Ht & _) | (Hr & _)]; [|contradiction].
    rewrite Ht. split; reflexivity.
  - intros Hs.
    destruct (Thread_Join_release_or_keep os this timeoutInMs h)
      as [(Hr & _) | (_ & Ht & _)]; [contradiction | exact Ht].
  - intros timeouts. apply joins_release_at_most_once.
Qed.

(** ** AtomicLock *)

(** C7. [AtomicLock::Unlock] takes a lock word of [1] to [0] in the one
    compare-exchange step, without a diagnostic; when the word it finds is
    [0] it emits the assertion failure "Tried to unlock an already unlocked
    AtomicLock", and it emits nothing for any other word. *)
Theorem AtomicLock_Unlock_signals_double_unlock (this : AtomicLock) (h : Trace) :
  (m_lock this = 1 ->
     AtomicLock_Unlock this h = ({| m_lock := 0 |}, []))
  /\ (m_lock this = 0 ->
        snd (AtomicLock_Unlock this h) =
          [EvDiag (DiagAssert "Tried to unlock an already unlocked AtomicLock")])
  /\ (m_lock this <> 0 -> snd (AtomicLock_Unlock this h) = []).
Proof.
  unfold AtomicLock_Unlock, InterlockedCompareExchangeRelease,
    InterlockedCompareExchange.
  repeat split; intros H.
  - rewrite H. reflexivity.
  - rewrite H. reflexivity.
  - apply Z.eqb_neq in H. rewrite H. reflexivity.
Qed.

(** C10. [AtomicLock::Unlock] on a lock whose word is [0] leaves the lock
    as it is, the word still [0]: the compare-exchange of [1] for [0]
    returns [0] and stores nothing; [Windows::ReleaseFastLock] on such a
    word returns [Error] and leaves it [0] as well. *)
Theorem AtomicLock_Unlock_unlocked_unchanged (this : AtomicLock) (h : Trace) :
  m_lock this = 0 ->
  fst (AtomicLock_Unlock this h) = this
  /\ m_lock (fst (AtomicLock_Unlock this h)) = 0
  /\ InterlockedCompareExchangeRelease (m_lock this) 0 1 = (0, 0)
  /\ ReleaseFastLock (m_lock this) = (Error, 0).
Proof.
  intros H. destruct this as [w]. cbn [m_lock] in *. subst w.
  repeat split.
Qed.

(** ** Mkdir *)

Lemma Mkdir_result (os : OS) (dir : string) (h : Trace) :
  fst (Mkdir os (Some dir) h) =
    let created := os_returns os h (SysCreateDirectory dir) in
    let lastError :=
      os_returns os (h ++ [EvCall (SysCreateDirectory dir) created])
        SysGetLastError in
    if created =? 0 then
      if to_int32 lastError =? ERROR_ALREADY_EXISTS then Success else FileIoError
    else Success.
Proof.
  cbv zeta. unfold Mkdir, CreateDirectory, GetLastError. run_M.
  destruct (os_returns os h (SysCreateDirectory dir) =? 0); cbn [negb fst];
    [|reflexivity].
  destruct (to_int32 _ =? ERROR_ALREADY_EXISTS); reflexivity.
Qed.

(** C8. On a path that is not null, [Mkdir] returns [Success] when
    [CreateDirectory] succeeds, [Success] when it fails with last error
    [ERROR_ALREADY_EXISTS], and [FileIoError] when it fails with any other
    last error. *)
Theorem Mkdir_success_or_io_error (os : OS) (dir : string) (h : Trace) :
  let created := os_returns os h (SysCreateDirectory dir) in
  let lastError :=
    os_returns os (h ++ [EvCall (SysCreateDirectory dir) created])
      SysGetLastError in
  let result := fst (Mkdir os (Some dir) h) in
  (created <> 0 -> result = Success)
  /\ (created = 0 -> lastError = ERROR_ALREADY_EXISTS -> result = Success)
  /\ (created = 0 -> lastError <> ERROR_ALREADY_EXISTS -> result = FileIoError).
Proof.
  cbv zeta. rewrite Mkdir_result. cbv zeta.
  set (created := os_returns os h (SysCreateDirectory dir)).
  set (lastError := os_returns os _ SysGetLastError).
  assert (Hrange : 0 <= lastError < 2 ^ 32) by apply to_uint32_range.
  pose proof (to_int32_already_exists lastError Hrange) as Hcast.
  destruct (Z.eqb_spec created 0) as [Hc|Hc];
    [destruct (Z.eqb_spec (to_int32 lastError) ERROR_ALREADY_EXISTS) as [He|He]|];
    repeat split; intros; try reflexivity; try congruence; tauto.
Qed.

(** C9. [Mkdir] on a null path returns [InvalidParameter] and makes no call
    to the system: no directory operation is attempted. *)
Theorem Mkdir_null_path (os : OS) (h : Trace) :
  Mkdir os None h = (InvalidParameter, []).
Proof. reflexivity. Qed.

(** ** Thread::SetNameRaw *)

Lemma mbstowcs_chars_length (mb : Decoder) (len : nat) :
  forall src : string,
    (List.length (fst (mbstowcs_chars mb src len)) <= len)%nat.
Proof.
  induction len as [|len IH]; intros src; cbn [mbstowcs_chars]; [cbn; lia|].
  destruct src as [|c rest]; [cbn; lia|].
  destruct (mb (String c rest)) as [[wc rest']|]; [|cbn; lia].
  specialize (IH rest'). destruct (mbstowcs_chars mb rest' len) as [ws n].
  cbn [fst List.length] in *. lia.
Qed.

Lemma store_wcs_length (ws dst : list Z) :
  (List.length ws <= List.length dst)%nat ->
  List.length (store_wcs ws dst) = List.length dst.
Proof.
  intros H. unfold store_wcs. rewrite length_app, length_skipn. lia.
Qed.

(** The conversion stays inside the array. *)
Lemma SetNameRaw_convert_in_bounds (N : nat) (mb : Decoder) (name : string) :
  List.length (fst (SetNameRaw_convert N mb name)) = N.
Proof.
  unfold SetNameRaw_convert, mbstowcs.
  pose proof (mbstowcs_chars_length mb (Nat.min N (strlen name)) name) as Hlen.
  destruct (mbstowcs_chars mb name (Nat.min N (strlen name))) as [ws n].
  cbn [fst] in *. rewrite store_wcs_length; rewrite repeat_length; lia.
Qed.

Lemma mbstowcs_chars_C (len : nat) :
  forall src : string,
    snd (mbstowcs_chars mbtowc_C src len) = Some (Nat.min len (strlen src)).
Proof.
  induction len as [|len IH]; intros src; cbn [mbstowcs_chars]; [reflexivity|].
  destruct src as [|c rest]; [reflexivity|].
  cbn [mbtowc_C]. specialize (IH rest).
  destruct (mbstowcs_chars mbtowc_C rest len) as [ws n]. cbn [snd] in *.
  rewrite IH. reflexivity.
Qed.

Lemma SetNameRaw_convert_C_long (N : nat) (name : string) :
  (N <= strlen name)%nat ->
  snd (SetNameRaw_convert N mbtowc_C name) = Z.of_nat N.
Proof.
  intros H. unfold SetNameRaw_convert, mbstowcs.
  pose proof (mbstowcs_chars_C (Nat.min N (strlen name)) name) as Hc.
  destruct (mbstowcs_chars mbtowc_C name (Nat.min N (strlen name))) as [ws n].
  cbn [snd] in *. subst n. f_equal. lia.
Qed.

Lemma SetNameRaw_convert_failure (N : nat) (mb : Decoder) (name : string) :
  snd (mbstowcs_chars mb name (Nat.min N (strlen name))) = None ->
  snd (SetNameRaw_convert N mb name) = SIZE_MAX.
Proof.
  intros H. unfold SetNameRaw_convert, mbstowcs.
  destruct (mbstowcs_chars mb name (Nat.min N (strlen name))) as [ws n].
  cbn [snd] in *. subst n. reflexivity.
Qed.

Lemma SUCCEEDED_iff (hr : Z) : SUCCEEDED hr = true <-> 0 <= hr.
Proof. unfold SUCCEEDED. apply Z.leb_le. Qed.

(** [Thread::SetNameRaw], path by path. *)
Lemma Thread_SetNameRaw_run (os : OS) (N : nat) (mb : Decoder) (this : Thread)
  (name : string) (h : Trace) :
  Thread_SetNameRaw os N mb this name h =
    let cModule := SysGetModuleHandle "kernel32.dll" in
    let hModule := os_returns os h cModule in
    let h1 := h ++ [EvCall cModule hModule] in
    let cProc := SysGetProcAddress hModule "SetThreadDescription" in
    let pfn := os_returns os h1 cProc in
    let h2 := h1 ++ [EvCall cProc pfn] in
    let conv := SetNameRaw_convert N mb name in
    let cName := SysSetThreadDescription pfn (hThread this) (wcs_of (fst conv)) in
    let hResult := os_returns os h2 cName in
    if hModule =? NULL then (Unavailable, [EvCall cModule hModule])
    else if pfn =? NULL then
      (Unavailable, [EvCall cModule hModule; EvCall cProc pfn])
    else if snd conv <? Z.of_nat N then
      (if SUCCEEDED hResult then Success else Error,
       [EvCall cModule hModule; EvCall cProc pfn; EvCall cName hResult])
    else (Error, [EvCall cModule hModule; EvCall cProc pfn]).
Proof.
  cbv zeta. unfold Thread_SetNameRaw, GetModuleHandle, GetProcAddress. run_M.
  destruct (os_returns os h (SysGetModuleHandle "kernel32.dll") =? NULL);
    cbn [negb]; [reflexivity|].
  destruct (os_returns os _ (SysGetProcAddress _ _) =? NULL);
    cbn [negb]; [reflexivity|].
  destruct (SetNameRaw_convert N mb name) as [buf converted]. cbn [fst snd].
  destruct (converted <? Z.of_nat N); cbn [fst snd app]; reflexivity.
Qed.

(** C5, as amended.  [Thread::SetNameRaw] returns [Unavailable] exactly when
    the module or the naming function is not found.  When they are found it
    returns [Success] exactly when the conversion yields fewer than
    [kThreadNameMaxLength] wide characters and the naming function reports
    success, and [Error] otherwise: when the conversion fails, when it
    yields [kThreadNameMaxLength] wide characters or more, or when the
    naming function reports a failure.  The conversion never writes outside
    the array of [kThreadNameMaxLength] elements; a name that fills it is
    rejected without the naming function being called, and with one byte
    per character that is every name of [kThreadNameMaxLength] bytes or
    more. *)
Theorem Thread_SetNameRaw_results (os : OS) (kThreadNameMaxLength : nat)
  (mbtowc : Decoder) (this : Thread) (pThreadName : string) (h : Trace) :
  let cModule := SysGetModuleHandle "kernel32.dll" in
  let hModule := os_returns os h cModule in
  let h1 := h ++ [EvCall cModule hModule] in
  let cProc := SysGetProcAddress hModule "SetThreadDescription" in
  let pfn := os_returns os h1 cProc in
  let h2 := h1 ++ [EvCall cProc pfn] in
  let conv := SetNameRaw_convert kThreadNameMaxLength mbtowc pThreadName in
  let hResult :=
    os_returns os h2
      (SysSetThreadDescription pfn (hThread this) (wcs_of (fst conv))) in
  let run := Thread_SetNameRaw os kThreadNameMaxLength mbtowc this pThreadName h in
  (fst run = Unavailable <-> hModule = NULL \/ pfn = NULL)
  /\ (hModule <> NULL -> pfn <> NULL ->
        (fst run = Success <->
           snd conv < Z.of_nat kThreadNameMaxLength /\ 0 <= hResult)
        /\ (fst run = Error <->
              Z.of_nat kThreadNameMaxLength <= snd conv \/ hResult < 0))
  /\ (hModule <> NULL -> pfn <> NULL ->
        Z.of_nat kThreadNameMaxLength <= SIZE_MAX ->
        snd (mbstowcs_chars mbtowc pThreadName
               (Nat.min kThreadNameMaxLength (strlen pThreadName))) = None ->
        fst run = Error)
  /\ List.length (fst conv) = kThreadNameMaxLength
  /\ (Z.of_nat kThreadNameMaxLength <= snd conv ->
        fst run <> Success /\ filter is_naming (snd run) = [])
  /\ ((kThreadNameMaxLength <= strlen pThreadName)%nat ->
        Z.of_nat kThreadNameMaxLength <=
          snd (SetNameRaw_convert kThreadNameMaxLength mbtowc_C pThreadName)).
Proof.
  cbv zeta. rewrite Thread_SetNameRaw_run. cbv zeta.
  set (cModule := SysGetModuleHandle "kernel32.dll").
  set (hModule := os_returns os h cModule).
  set (cProc := SysGetProcAddress hModule "SetThreadDescription").
  set (pfn := os_returns os _ cProc).
  set (conv := SetNameRaw_convert kThreadNameMaxLength mbtowc pThreadName).
  set (hResult := os_returns os _ (SysSetThreadDescription _ _ _)).
  pose proof (SUCCEEDED_iff hResult) as Hs.
  split; [|split; [|split; [|split; [|split]]]].
  - destruct (Z.eqb_spec hModule NULL); [tauto|].
    destruct (Z.eqb_spec pfn NULL); [tauto|].
    destruct (snd conv <? Z.of_nat kThreadNameMaxLength);
      [destruct (SUCCEEDED hResult)|]; cbn [fst];
      split; intros; try discriminate; tauto.
  - intros Hm Hp.
    apply Z.eqb_neq in Hm, Hp. rewrite Hm, Hp.
    destruct (Z.ltb_spec (snd conv) (Z.of_nat kThreadNameMaxLength)).
    + destruct (SUCCEEDED hResult) eqn:E; cbn [fst].
      * assert (0 <= hResult) by (apply Hs; reflexivity).
        repeat split; intros; try discriminate; try lia.
      * assert (~ 0 <= hResult) by (rewrite <- Hs; discriminate).
        repeat split; intros; try discriminate; try lia.
    + cbn [fst]. repeat split; intros; try discriminate; try lia.
  - intros Hm Hp HN Hfail.
    apply Z.eqb_neq in Hm, Hp. rewrite Hm, Hp.
    unfold conv. rewrite (SetNameRaw_convert_failure _ _ _ Hfail).
    destruct (Z.ltb_spec SIZE_MAX (Z.of_nat kThreadNameMaxLength));
      [lia|reflexivity].
  - apply SetNameRaw_convert_in_bounds.
  - intros Hlong.
    destruct (Z.ltb_spec (snd conv) (Z.of_nat kThreadNameMaxLength)); [lia|].
    destruct (hModule =? NULL); [split; [discriminate|reflexivity]|].
    destruct (pfn =? NULL); split; try discriminate; reflexivity.
  - intros Hlong. rewrite SetNameRaw_convert_C_long by exact Hlong. lia.
Qed.

(** ** The model on concrete inputs *)

(** The naming function is found and the six characters of the name are
    converted, but the naming function returns [E_FAIL]: the result is
    [Error]. *)
Example Thread_SetNameRaw_naming_fails :
  Thread_SetNameRaw (os_scripted true 0) 64 mbtowc_C thread_running "worker" [] =
    (Error,
     [EvCall (SysGetModuleHandle "kernel32.dll") 65536;
      EvCall (SysGetProcAddress 65536 "SetThreadDescription") 65600;
      EvCall (SysSetThreadDescription 65600 4096 [119; 111; 114; 107; 101; 114])
        E_FAIL]).
Proof. vm_compute. reflexivity. Qed.

(** With two-byte characters a name of five bytes has three characters; it
    fits an array of four and is passed on whole. *)
Example Thread_SetNameRaw_multibyte_name_fits :
  strlen name_dbcs = 5%nat
  /\ Thread_SetNameRaw (os_always 1) 4 mbtowc_dbcs thread_running name_dbcs [] =
       (Success,
        [EvCall (SysGetModuleHandle "kernel32.dll") 1;
         EvCall (SysGetProcAddress 1 "SetThreadDescription") 1;
         EvCall (SysSetThreadDescription 1 4096 [51265; 51522; 67]) 1]).
Proof. split; vm_compute; reflexivity. Qed.

(** A wait on the thread handle that fails counts as "not alive": the handle
    is closed and [Join] returns [Success]. *)
Example Thread_Join_after_failed_wait :
  fst (Thread_Join (os_wait_status WAIT_FAILED) thread_running 1000 []) =
    (Success, Reset thread_running).
Proof. vm_compute. reflexivity. Qed.

(** C5, as stated, fails: with the naming function found and the name
    converted and short enough, the result is not always [Success]. *)
Lemma Thread_SetNameRaw_success_otherwise_fails :
  ~ (forall (os : OS) (kThreadNameMaxLength : nat) (mbtowc : Decoder)
       (this : Thread) (pThreadName : string) (h : Trace),
       os_returns os h (SysGetModuleHandle "kernel32.dll") <> NULL ->
       os_returns os
         (h ++ [EvCall (SysGetModuleHandle "kernel32.dll")
                  (os_returns os h (SysGetModuleHandle "kernel32.dll"))])
         (SysGetProcAddress (os_returns os h (SysGetModuleHandle "kernel32.dll"))
            "SetThreadDescription") <> NULL ->
       snd (SetNameRaw_convert kThreadNameMaxLength mbtowc pThreadName)
         < Z.of_nat kThreadNameMaxLength ->
       fst (Thread_SetNameRaw os kThreadNameMaxLength mbtowc this pThreadName h)
         = Success).
Proof.
  intros H.
  specialize (H (os_scripted true 0) 64%nat mbtowc_C thread_running "worker" []).
  rewrite Thread_SetNameRaw_naming_fails in H. cbn [fst] in H.
  assert (Error = Success) as Habs; [|discriminate Habs].
  apply H; vm_compute; congruence.
Qed.

Lemma Thread_Start_fails_fast_witness :
  (hThread thread_running <> NULL \/ 8192 = NULL)
  /\ Thread_Start (os_scripted true 0) thread_running 8192 0 [] =
       ((Error, thread_running), []).
Proof.
  assert (H : hThread thread_running <> NULL \/ 8192 = NULL)
    by (left; vm_compute; discriminate).
  split; [exact H|].
  exact (proj1 (Thread_Start_fails_fast (os_scripted true 0) thread_running
                  8192 0 []) H).
Defined.

Lemma Thread_Join_unstarted_witness :
  hThread thread_idle = NULL
  /\ Thread_Join (os_scripted true 0) thread_idle 1000 [] =
       ((Error, thread_idle), [EvDiag (DiagWarn "result != Result::Error")])
  /\ calls (snd (Thread_Join (os_scripted true 0) thread_idle 1000 [])) = [].
Proof.
  assert (H : hThread thread_idle = NULL) by reflexivity.
  split; [exact H|].
  exact (proj1 (Thread_Join_unstarted_and_IsJoinable (os_scripted true 0)
                  thread_idle 1000 []) H).
Defined.

Lemma Thread_Join_failed_release_witness :
  IsJoinable thread_running = true
  /\ Thread_Join_wait (os_scripted false 0) thread_running 1000 Success [] =
       (Success, [EvCall (SysWaitForSingleObject 4096 0) 0])
  /\ os_returns (os_scripted false 0)
       ([] ++ [EvCall (SysWaitForSingleObject 4096 0) 0])
       (SysCloseHandle (hThread thread_running)) = 0
  /\ fst (Thread_Join (os_scripted false 0) thread_running 1000 []) =
       (Error, thread_running)
  /\ IsJoinable
       (snd (fst (Thread_Join (os_scripted false 0) thread_running 1000 [])))
       = true
  /\ released (snd (Thread_Join (os_scripted false 0) thread_running 1000 []))
       = 0%nat.
Proof.
  assert (H1 : IsJoinable thread_running = true) by reflexivity.
  assert (H2 : Thread_Join_wait (os_scripted false 0) thread_running 1000
                 Success [] =
               (Success, [EvCall (SysWaitForSingleObject 4096 0) 0]))
    by (vm_compute; reflexivity).
  assert (H3 : os_returns (os_scripted false 0)
                 ([] ++ [EvCall (SysWaitForSingleObject 4096 0) 0])
                 (SysCloseHandle (hThread thread_running)) = 0)
    by (vm_compute; reflexivity).
  split; [exact H1|]. split; [exact H2|]. split; [exact H3|].
  exact (proj1 (Thread_Join_failed_release_keeps_handle (os_scripted false 0)
                  thread_running 1000 [])
           [EvCall (SysWaitForSingleObject 4096 0) 0] H1 H2 H3).
Defined.

Lemma WaitObject_three_way_witness :
  WaitObject_status (os_wait_status WAIT_FAILED) 512 100 [] = WAIT_FAILED
  /\ fst (WaitObject (os_wait_status WAIT_FAILED) 512 100 []) = Error.
Proof.
  assert (H : WaitObject_status (os_wait_status WAIT_FAILED) 512 100 [] =
              WAIT_FAILED) by (vm_compute; reflexivity).
  split; [exact H|].
  pose proof (WaitObject_three_way (os_wait_status WAIT_FAILED) 512 100 [])
    as Hthree.
  cbv zeta in Hthree.
  exact (proj1 (proj2 (proj2 (proj2 Hthree))) H).
Defined.

Lemma Thread_SetNameRaw_results_witness :
  Z.of_nat 8 <= snd (SetNameRaw_convert 8 mbtowc_C "worker12")
  /\ fst (Thread_SetNameRaw (os_always 1) 8 mbtowc_C thread_running "worker12" [])
       <> Success
  /\ filter is_naming
       (snd (Thread_SetNameRaw (os_always 1) 8 mbtowc_C thread_running
               "worker12" [])) = [].
Proof.
  assert (H : Z.of_nat 8 <= snd (SetNameRaw_convert 8 mbtowc_C "worker12"))
    by (vm_compute; discriminate).
  split; [exact H|].
  pose proof (Thread_SetNameRaw_results (os_always 1) 8 mbtowc_C thread_running
                "worker12" []) as Hres.
  cbv zeta in Hres.
  exact (proj1 (proj2 (proj2 (proj2 (proj2 Hres)))) H).
Defined.

Lemma AtomicLock_Unlock_signals_double_unlock_witness :
  m_lock {| m_lock := 0 |} = 0
  /\ snd (AtomicLock_Unlock {| m_lock := 0 |} []) =
       [EvDiag (DiagAssert "Tried to unlock an already unlocked AtomicLock")].
Proof.
  assert (H : m_lock {| m_lock := 0 |} = 0) by reflexivity.
  split; [exact H|].
  exact (proj1 (proj2 (AtomicLock_Unlock_signals_double_unlock
                         {| m_lock := 0 |} [])) H).
Defined.

Lemma AtomicLock_Unlock_unlocked_unchanged_witness :
  m_lock {| m_lock := 0 |} = 0
  /\ fst (AtomicLock_Unlock {| m_lock := 0 |} []) = {| m_lock := 0 |}
  /\ m_lock (fst (AtomicLock_Unlock {| m_lock := 0 |} [])) = 0
  /\ InterlockedCompareExchangeRelease (m_lock {| m_lock := 0 |}) 0 1 = (0, 0)
  /\ ReleaseFastLock (m_lock {| m_lock := 0 |}) = (Error, 0).
Proof.
  assert (H : m_lock {| m_lock := 0 |} = 0) by reflexivity.
  split; [exact H|].
  exact (AtomicLock_Unlock_unlocked_unchanged {| m_lock := 0 |} [] H).
Defined.

Lemma Mkdir_success_or_io_error_witness :
  os_returns (os_scripted true 183) [] (SysCreateDirectory "logs") = 0
  /\ os_returns (os_scripted true 183)
       ([] ++ [EvCall (SysCreateDirectory "logs") 0]) SysGetLastError
     = ERROR_ALREADY_EXISTS
  /\ fst (Mkdir (os_scripted true 183) (Some "logs") []) = Success.
Proof.
  assert (H1 : os_returns (os_scripted true 183) [] (SysCreateDirectory "logs")
               = 0) by (vm_compute; reflexivity).
  assert (H2 : os_returns (os_scripted true 183)
                 ([] ++ [EvCall (SysCreateDirectory "logs")
                           (os_returns (os_scripted true 183) []
                              (SysCreateDirectory "logs"))])
                 SysGetLastError = ERROR_ALREADY_EXISTS)
    by (vm_compute; reflexivity).
  split; [exact H1|]. split; [exact H2|].
  pose proof (Mkdir_success_or_io_error (os_scripted true 183) "logs" [])
    as Hdir.
  cbv zeta in Hdir.
  exact (proj1 (proj2 Hdir) H1 H2).
Defined.

(** * Properties of the rest of the platform layer *)

(** ** Atomic variables under any interleaving *)

Lemma Atomic_apply_value (v : Z) (op : AtomicOp) :
  Atomic_apply v op =
    (to_int32 (v + Atomic_delta op), to_int32 (v + Atomic_delta op)).
Proof.
  destruct op; cbn [Atomic_apply Atomic_delta];
    unfold AtomicIncrement, AtomicAdd, AtomicDecrement, AtomicSubtract,
      cast_result, InterlockedIncrement, InterlockedAdd, InterlockedDecrement,
      to_int32; cbn [fst snd];
    rewrite ?wrap_signed_idem, ?wrap_signed_sub_negated, ?wrap_signed_add_cast
      by lia;
    reflexivity.
Qed.

Lemma Atomic64_apply_value (v : Z) (op : AtomicOp) :
  Atomic64_apply v op =
    (to_int64 (v + Atomic_delta op), to_int64 (v + Atomic_delta op)).
Proof.
  destruct op; cbn [Atomic64_apply Atomic_delta];
    unfold AtomicIncrement64, AtomicAdd64, AtomicDecrement64, AtomicSubtract64,
      cast_result, InterlockedIncrement64, InterlockedAdd64,
      InterlockedDecrement64, to_int64; cbn [fst snd];
    rewrite ?wrap_signed_idem, ?wrap_signed_sub_negated, ?wrap_signed_add_cast
      by lia;
    reflexivity.
Qed.

Lemma wrap_signed_add_cast_l (w v n : Z) :
  0 < w -> wrap_signed w (wrap_signed w v + n) = wrap_signed w (v + n).
Proof.
  intros Hw. rewrite (Z.add_comm (wrap_signed w v)), (Z.add_comm v).
  apply wrap_signed_add_cast. exact Hw.
Qed.

Lemma Atomic_run_total (ops : list AtomicOp) :
  forall v : Z,
    to_int32 (Atomic_run v ops) = to_int32 (v + Atomic_total ops).
Proof.
  induction ops as [|op rest IH]; intros v; cbn [Atomic_run Atomic_total fold_right].
  - f_equal. lia.
  - rewrite Atomic_apply_value. cbn [snd]. rewrite IH.
    fold (Atomic_total rest). unfold to_int32.
    rewrite wrap_signed_add_cast_l by lia. f_equal. lia.
Qed.

Lemma Atomic64_run_total (ops : list AtomicOp) :
  forall v : Z,
    to_int64 (Atomic64_run v ops) = to_int64 (v + Atomic_total ops).
Proof.
  induction ops as [|op rest IH]; intros v; cbn [Atomic64_run Atomic_total fold_right].
  - f_equal. lia.
  - rewrite Atomic64_apply_value. cbn [snd]. rewrite IH.
    fold (Atomic_total rest). unfold to_int64.
    rewrite wrap_signed_add_cast_l by lia. f_equal. lia.
Qed.

Lemma Atomic_run_in_range (ops : list AtomicOp) :
  forall v : Z, INT32_MIN <= v <= INT32_MAX ->
                INT32_MIN <= Atomic_run v ops <= INT32_MAX.
Proof.
  induction ops as [|op rest IH]; intros v Hv; cbn [Atomic_run]; [exact Hv|].
  apply IH. rewrite Atomic_apply_value. cbn [snd].
  pose proof (wrap_signed_range 32 (v + Atomic_delta op)) as H.
  unfold to_int32, INT32_MIN, INT32_MAX in *. 
  change (2 ^ (32 - 1)) with (2 ^ 31) in H. lia.
Qed.

Lemma Atomic64_run_in_range (ops : list AtomicOp) :
  forall v : Z, INT64_MIN <= v < 2 ^ 63 ->
                INT64_MIN <= Atomic64_run v ops < 2 ^ 63.
Proof.
  induction ops as [|op rest IH]; intros v Hv; cbn [Atomic64_run]; [exact Hv|].
  apply IH. rewrite Atomic64_apply_value. cbn [snd].
  pose proof (wrap_signed_range 64 (v + Atomic_delta op)) as H.
  unfold to_int64, INT64_MIN in *.
  change (2 ^ (64 - 1)) with (2 ^ 63) in H. lia.
Qed.

Lemma Atomic_total_perm (ops ops' : list AtomicOp) :
  Permutation ops ops' -> Atomic_total ops = Atomic_total ops'.
Proof.
  induction 1; cbn [Atomic_total fold_right] in *; unfold Atomic_total in *; lia.
Qed.

Lemma Atomic_total_increments (n : nat) :
  Atomic_total (repeat OpIncrement n) = Z.of_nat n.
Proof.
  induction n as [|n IH]; [reflexivity|].
  cbn [repeat Atomic_total fold_right Atomic_delta]. fold (Atomic_total (repeat OpIncrement n)).
  rewrite IH. lia.
Qed.

(** X2. Whatever sequence of increments, additions, decrements and
    subtractions is applied to a 32-bit atomic variable, the variable ends
    at its initial value plus the sum of the operands, wrapped to 32 bits:
    the order in which the operations interleave does not matter, nothing is
    lost, and [n] increments from zero give [n]. *)
Theorem Atomic_run_sums (v : Z) (ops : list AtomicOp) :
  INT32_MIN <= v <= INT32_MAX ->
  Atomic_run v ops = to_int32 (v + Atomic_total ops)
  /\ (forall ops' : list AtomicOp,
        Permutation ops ops' -> Atomic_run v ops' = Atomic_run v ops)
  /\ (INT32_MIN <= v + Atomic_total ops <= INT32_MAX ->
        Atomic_run v ops = v + Atomic_total ops)
  /\ (forall n : nat,
        Z.of_nat n <= INT32_MAX -> Atomic_run 0 (repeat OpIncrement n) = Z.of_nat n).
Proof.
  intros Hv.
  assert (Hrun : forall l, Atomic_run v l = to_int32 (v + Atomic_total l)).
  { intros l. rewrite <- Atomic_run_total.
    pose proof (Atomic_run_in_range l v Hv) as Hr.
    unfold to_int32. rewrite wrap_signed_small; [reflexivity | lia |].
    unfold INT32_MIN, INT32_MAX in Hr. change (2 ^ (32 - 1)) with (2 ^ 31). lia. }
  split; [apply Hrun|]. split; [|split].
  - intros ops' Hp. rewrite !Hrun, (Atomic_total_perm ops ops' Hp). reflexivity.
  - intros Hs. rewrite Hrun. unfold to_int32. apply wrap_signed_small; [lia|].
    unfold INT32_MIN, INT32_MAX in Hs. change (2 ^ (32 - 1)) with (2 ^ 31). lia.
  - intros n Hn.
    pose proof (Atomic_run_total (repeat OpIncrement n) 0) as Ht.
    pose proof (Atomic_run_in_range (repeat OpIncrement n) 0) as Hr.
    unfold INT32_MIN, INT32_MAX in *.
    assert (Hr' : - 2 ^ 31 <= Atomic_run 0 (repeat OpIncrement n) <= 2 ^ 31 - 1)
      by (apply Hr; lia).
    rewrite Atomic_total_increments in Ht. unfold to_int32 in Ht.
    rewrite !wrap_signed_small in Ht; change (2 ^ (32 - 1)) with (2 ^ 31); lia.
Qed.

(** X3. The same for a 64-bit atomic variable: the final value is the
    initial value plus the sum of the operands wrapped to 64 bits, whatever
    the order of the operations. *)
Theorem Atomic64_run_sums (v : Z) (ops : list AtomicOp) :
  INT64_MIN <= v < 2 ^ 63 ->
  Atomic64_run v ops = to_int64 (v + Atomic_total ops)
  /\ (forall ops' : list AtomicOp,
        Permutation ops ops' -> Atomic64_run v ops' = Atomic64_run v ops)
  /\ (INT64_MIN <= v + Atomic_total ops < 2 ^ 63 ->
        Atomic64_run v ops = v + Atomic_total ops).
Proof.
  intros Hv.
  assert (Hrun : forall l, Atomic64_run v l = to_int64 (v + Atomic_total l)).
  { intros l. rewrite <- Atomic64_run_total.
    pose proof (Atomic64_run_in_range l v Hv) as Hr.
    unfold to_int64. rewrite wrap_signed_small; [reflexivity | lia |].
    unfold INT64_MIN in Hr. change (2 ^ (64 - 1)) with (2 ^ 63). lia. }
  split; [apply Hrun|]. split.
  - intros ops' Hp. rewrite !Hrun, (Atomic_total_perm ops ops' Hp). reflexivity.
  - intros Hs. rewrite Hrun. unfold to_int64. apply wrap_signed_small; [lia|].
    unfold INT64_MIN in Hs. change (2 ^ (64 - 1)) with (2 ^ 63). lia.
Qed.


(** ** The spin lock *)

Lemma Lock_run_returns_held (others : list (Z -> Z)) :
  forall (pc : LockPc) (word word' : Z),
    AtomicLock_Lock_run others pc word = Some word' ->
    word' <> 0
    /\ (Forall keeps_01 others -> word = 0 \/ word = 1 -> word' = 1).
Proof.
  induction others as [|f rest IH]; intros pc word word' Hrun; [discriminate|].
  cbn [AtomicLock_Lock_run] in Hrun.
  unfold InterlockedCompareExchangeAcquire, InterlockedCompareExchange in Hrun.
  destruct pc.
  - destruct (Z.eqb_spec (f word) 1) as [H1|H1].
    + destruct (Z.eqb_spec (f word) 0) as [H0|H0]; [lia|].
      destruct (IH _ _ _ Hrun) as [Hn Hk]. split; [exact Hn|].
      intros Hall Hw. inversion Hall; subst. apply Hk; [assumption|]. right. exact H1.
    + destruct (Z.eqb_spec (f word) 0) as [H0|H0];
        injection Hrun as <-; split; try lia.
      intros Hall Hw. inversion Hall as [|? ? Hf _]; subst.
      destruct (Hf word Hw); lia.
  - destruct (Z.eqb_spec (f word) 0) as [H0|H0]; cbn [negb] in Hrun;
      destruct (IH _ _ _ Hrun) as [Hn Hk]; (split; [exact Hn|]);
      intros Hall Hw; inversion Hall as [|? ? Hf Hrest]; subst;
      apply Hk; try assumption; apply Hf; exact Hw.
Qed.

Lemma Lock_run_held_forever (others : list (Z -> Z)) :
  forall pc : LockPc,
    Forall (fun f => f 1 = 1) others ->
    AtomicLock_Lock_run others pc 1 = None.
Proof.
  induction others as [|f rest IH]; intros pc Hall; [reflexivity|].
  inversion Hall as [|? ? Hf Hrest]; subst.
  cbn [AtomicLock_Lock_run]. rewrite Hf.
  destruct pc; cbn; apply IH; exact Hrest.
Qed.

Lemma Lock_run_spin_idle (k : nat) (rest : list (Z -> Z)) :
  AtomicLock_Lock_run (repeat other_idle k ++ rest) LockAtSpin 1 =
    AtomicLock_Lock_run rest LockAtSpin 1.
Proof.
  induction k as [|k IH]; [reflexivity|].
  cbn [repeat app AtomicLock_Lock_run]. unfold other_idle at 1. cbn. exact IH.
Qed.

Lemma Lock_run_after_unlock (k : nat) (rest : list (Z -> Z)) :
  AtomicLock_Lock_run (repeat other_idle k ++ other_unlocks :: other_idle :: rest)
    LockAtExchange 1 = Some 1.
Proof.
  destruct k as [|k]; [reflexivity|].
  cbn [repeat app AtomicLock_Lock_run]. unfold other_idle at 1.
  cbn [InterlockedCompareExchangeAcquire InterlockedCompareExchange Z.eqb Pos.eqb].
  unfold InterlockedCompareExchangeAcquire, InterlockedCompareExchange.
  cbn [Z.eqb Pos.eqb]. rewrite Lock_run_spin_idle. reflexivity.
Qed.
Lemma WaitObject_closes_nothing (os : OS) (hObject : HANDLE) (ms : Z) (h : Trace) :
  filter is_close (snd (WaitObject os hObject ms h)) = [].
Proof.
  unfold_platform. run_M.
  repeat (break_if; run_M); reflexivity.
Qed.

Lemma WaitObject_waits_once (os : OS) (hObject : HANDLE) (ms : Z) (h : Trace) :
  filter is_wait (snd (WaitObject os hObject ms h)) =
    [EvCall (SysWaitForSingleObject hObject ms) (WaitObject_status os hObject ms h)].
Proof.
  unfold WaitObject_status. unfold_platform. run_M.
  repeat (break_if; run_M); rewrite ?app_nil_r; reflexivity.
Qed.

(** The first block of [Thread::Join] on a joinable object. *)
Lemma Thread_Join_wait_run (os : OS) (this : Thread) (ms : Z) (h : Trace) :
  Thread_Join_wait os this ms Success h =
    let alive := WaitObject os (hThread this) 0 h in
    if Result_eqb (fst alive) NotReady then
      let waited := WaitObject os (m_event (onExit this)) ms (h ++ snd alive) in
      (fst waited, snd alive ++ snd waited)
    else (Success, snd alive).
Proof.
  unfold Thread_Join_wait, Event_Wait. cbn [Result_eqb]. unfold bind.
  destruct (WaitObject os (hThread this) 0 h) as [alive e0]. cbn [fst snd].
  destruct (Result_eqb alive NotReady).
  - destruct (WaitObject os _ ms (h ++ e0)) as [r e1]. reflexivity.
  - unfold ret. rewrite app_nil_r. reflexivity.
Qed.

Lemma WaitObject_NotReady (os : OS) (hObject : HANDLE) (ms : Z) (h : Trace) :
  Result_eqb (fst (WaitObject os hObject ms h)) NotReady =
    (WaitObject_status os hObject ms h =? WAIT_TIMEOUT).
Proof.
  rewrite WaitObject_result. cbv zeta.
  destruct (Z.eqb_spec (WaitObject_status os hObject ms h) WAIT_OBJECT_0) as [H0|H0].
  - rewrite H0. reflexivity.
  - destruct (WaitObject_status os hObject ms h =? WAIT_TIMEOUT); reflexivity.
Qed.

Lemma Thread_Join_close_run (os : OS) (this : Thread) (h : Trace) :
  Thread_Join_close os this Success h =
    let closed := os_returns os h (SysCloseHandle (hThread this)) in
    if closed =? 0 then
      (Error, [EvCall (SysCloseHandle (hThread this)) closed;
               EvDiag (DiagWarn "Closing the thread handle failed!")])
    else (Success, [EvCall (SysCloseHandle (hThread this)) closed]).
Proof.
  unfold Thread_Join_close, CloseHandle. cbn [Result_eqb]. run_M.
  destruct (os_returns os h (SysCloseHandle (hThread this)) =? 0); reflexivity.
Qed.

Lemma Thread_Join_close_skip (os : OS) (this : Thread) (r : Result) (h : Trace) :
  r <> Success -> Thread_Join_close os this r h = (r, []).
Proof.
  intros Hr. unfold Thread_Join_close. destruct r; try reflexivity. congruence.
Qed.

Lemma filter_is_wait_app (a b : Trace) :
  filter is_wait (a ++ b) = filter is_wait a ++ filter is_wait b.
Proof. apply filter_app. Qed.

(** X9. When the zero-timeout wait on the thread handle of a joinable object
    returns anything but [WAIT_TIMEOUT], a failed wait included,
    [Thread::Join] does not wait on the exit event: it closes the handle and
    returns [Success] with the object reset, or [Error] with the object
    unchanged when the close fails, whatever the timeout. *)
Theorem Thread_Join_skips_event_when_not_alive
  (os : OS) (this : Thread) (timeoutInMs : Z) (h : Trace) :
  IsJoinable this = true ->
  WaitObject_status os (hThread this) 0 h <> WAIT_TIMEOUT ->
  let alive := snd (WaitObject os (hThread this) 0 h) in
  let closed := os_returns os (h ++ alive) (SysCloseHandle (hThread this)) in
  filter is_wait (snd (Thread_Join os this timeoutInMs h)) =
    [EvCall (SysWaitForSingleObject (hThread this) 0)
       (WaitObject_status os (hThread this) 0 h)]
  /\ fst (Thread_Join os this timeoutInMs h) =
       (if closed =? 0 then (Error, this) else (Success, Reset this))
  /\ (forall otherTimeout : Z,
        Thread_Join os this otherTimeout h = Thread_Join os this timeoutInMs h).
Proof.
  intros Hj Hst. cbv zeta.
  assert (Hrun : forall ms, Thread_Join os this ms h =
     let alive := snd (WaitObject os (hThread this) 0 h) in
     let closed := os_returns os (h ++ alive) (SysCloseHandle (hThread this)) in
     if closed =? 0 then
       ((Error, this),
        alive ++ [EvCall (SysCloseHandle (hThread this)) closed;
                  EvDiag (DiagWarn "Closing the thread handle failed!");
                  EvDiag (DiagWarn "result != Result::Error")])
     else ((Success, Reset this),
           alive ++ [EvCall (SysCloseHandle (hThread this)) closed])).
  { intros ms. cbv zeta. rewrite Thread_Join_phases, Hj, Thread_Join_wait_run.
    cbv zeta. rewrite WaitObject_NotReady.
    apply Z.eqb_neq in Hst. rewrite Hst.
    rewrite Thread_Join_close_run. cbv zeta.
    destruct (os_returns os _ (SysCloseHandle (hThread this)) =? 0); reflexivity. }
  split; [|split].
  - rewrite Hrun. cbv zeta.
    destruct (os_returns os _ (SysCloseHandle (hThread this)) =? 0); cbn [snd];
      rewrite filter_is_wait_app, WaitObject_waits_once; reflexivity.
  - rewrite Hrun. cbv zeta.
    destruct (os_returns os _ (SysCloseHandle (hThread this)) =? 0); reflexivity.
  - intros ms'. rewrite !Hrun. reflexivity.
Qed.

(** X10. When the thread is alive and the wait on the exit event does not
    return [Success], [Thread::Join] returns the result of that wait,
    [NotReady] on a timeout, does not call [CloseHandle] and leaves the
    object joinable, so the join can be tried again. *)
Theorem Thread_Join_unfinished_keeps_handle
  (os : OS) (this : Thread) (timeoutInMs : Z) (h : Trace) :
  IsJoinable this = true ->
  WaitObject_status os (hThread this) 0 h = WAIT_TIMEOUT ->
  let alive := snd (WaitObject os (hThread this) 0 h) in
  let waited := Event_Wait os (onExit this) timeoutInMs (h ++ alive) in
  (fst waited <> Success ->
     fst (Thread_Join os this timeoutInMs h) = (fst waited, this)
     /\ filter is_close (snd (Thread_Join os this timeoutInMs h)) = []
     /\ IsJoinable (snd (fst (Thread_Join os this timeoutInMs h))) = true)
  /\ (WaitObject_status os (m_event (onExit this)) timeoutInMs (h ++ alive)
        = WAIT_TIMEOUT ->
      fst (Thread_Join os this timeoutInMs h) = (NotReady, this)).
Proof.
  intros Hj Hst. cbv zeta.
  assert (Hrun : forall r, r = fst (Event_Wait os (onExit this) timeoutInMs
                         (h ++ snd (WaitObject os (hThread this) 0 h))) ->
     r <> Success ->
     Thread_Join os this timeoutInMs h =
       ((r, this),
        (snd (WaitObject os (hThread this) 0 h) ++
         snd (Event_Wait os (onExit this) timeoutInMs
                (h ++ snd (WaitObject os (hThread this) 0 h)))) ++ [] ++
        (if Result_eqb r Error then [EvDiag (DiagWarn "result != Result::Error")]
         else []))).
  { intros r Hr Hne. rewrite Thread_Join_phases, Hj, Thread_Join_wait_run.
    cbv zeta. rewrite WaitObject_NotReady, Hst. cbn [Z.eqb WAIT_TIMEOUT Pos.eqb].
    unfold Event_Wait in *. rewrite <- Hr.
    rewrite Thread_Join_close_skip by exact Hne.
    destruct r; try reflexivity. congruence. }
  split.
  - intros Hne. rewrite (Hrun _ eq_refl Hne). cbn [fst snd].
    split; [reflexivity|]. split; [|exact Hj].
    unfold Event_Wait. rewrite !filter_app, !WaitObject_closes_nothing.
    destruct (Result_eqb _ Error); reflexivity.
  - intros Hst2.
    assert (Hr : fst (Event_Wait os (onExit this) timeoutInMs
                        (h ++ snd (WaitObject os (hThread this) 0 h))) = NotReady).
    { unfold Event_Wait. rewrite WaitObject_result. cbv zeta. rewrite Hst2.
      reflexivity. }
    rewrite (Hrun NotReady (eq_sym Hr)) by discriminate. reflexivity.
Qed.

Lemma Thread_Join_wait_closes_nothing
  (os : OS) (this : Thread) (ms : Z) (r : Result) (h : Trace) :
  filter is_close (snd (Thread_Join_wait os this ms r h)) = [].
Proof.
  destruct r; try reflexivity.
  rewrite Thread_Join_wait_run. cbv zeta.
  destruct (Result_eqb _ NotReady); cbn [snd];
    rewrite ?filter_app, ?WaitObject_closes_nothing; reflexivity.
Qed.

Lemma Thread_Join_wait_three_way
  (os : OS) (this : Thread) (ms : Z) (r : Result) (h : Trace) :
  r = Success \/ r = Error ->
  let r' := fst (Thread_Join_wait os this ms r h) in
  r' = Success \/ r' = NotReady \/ r' = Error.
Proof.
  intros [-> | ->]; cbv zeta; [|right; right; reflexivity].
  rewrite Thread_Join_wait_run. cbv zeta.
  destruct (Result_eqb _ NotReady); cbn [fst]; [|left; reflexivity].
  rewrite WaitObject_result. cbv zeta.
  repeat break_if; auto.
Qed.

(** X11. [Thread::Join] returns [Success], [NotReady] or [Error]; it calls
    [CloseHandle] at most once, only on the handle of the object and only
    when that handle is not null, and it returns [Success] exactly when that
    call succeeded. *)
Theorem Thread_Join_closes_only_own_handle
  (os : OS) (this : Thread) (timeoutInMs : Z) (h : Trace) :
  let run := Thread_Join os this timeoutInMs h in
  (fst (fst run) = Success \/ fst (fst run) = NotReady \/ fst (fst run) = Error)
  /\ (filter is_close (snd run) = [] /\ fst (fst run) <> Success
      \/ exists closed : Z,
           filter is_close (snd run) =
             [EvCall (SysCloseHandle (hThread this)) closed]
           /\ hThread this <> NULL
           /\ (fst (fst run) = Success <-> closed <> 0))
  /\ (fst (fst run) = NotReady -> filter is_close (snd run) = []).
Proof.
  cbv zeta. rewrite Thread_Join_phases.
  pose proof (Thread_Join_wait_closes_nothing os this timeoutInMs
                (if IsJoinable this then Success else Error) h) as Hc.
  pose proof (Thread_Join_wait_three_way os this timeoutInMs
                (if IsJoinable this then Success else Error) h) as H3.
  destruct (IsJoinable this) eqn:Hj.
  - apply IsJoinable_bound in Hj.
    specialize (H3 (or_introl eq_refl)). cbv zeta in H3.
    destruct (Thread_Join_wait _ _ _ _ _) as [r1 e1]. cbn [fst snd] in *.
    destruct H3 as [-> | [-> | ->]].
    + rewrite Thread_Join_close_run. cbv zeta.
      destruct (Z.eqb_spec (os_returns os (h ++ e1) (SysCloseHandle (hThread this))) 0)
        as [H0|H0]; cbn [fst snd Result_eqb];
        rewrite !filter_app, Hc; cbn [filter is_close app].
      * split; [auto|]. split; [|discriminate].
        right. eexists. split; [reflexivity|]. split; [exact Hj|].
        split; [discriminate | congruence].
      * split; [auto|]. split; [|discriminate].
        right. eexists. split; [reflexivity|]. split; [exact Hj|].
        split; [intros _; exact H0 | reflexivity].
    + rewrite Thread_Join_close_skip by discriminate. cbn [fst snd Result_eqb].
      rewrite !filter_app, Hc. cbn.
      split; [auto|]. split; [left; split; [reflexivity|discriminate]|reflexivity].
    + rewrite Thread_Join_close_skip by discriminate. cbn [fst snd Result_eqb].
      rewrite !filter_app, Hc. cbn.
      split; [auto|]. split; [left; split; [reflexivity|discriminate]|discriminate].
  - cbn. split; [auto|].
    split; [left; split; [reflexivity|discriminate]|discriminate].
Qed.

(** X12. After a [Join] that returned [Success] the object can be started
    again: [Start] with an entry function calls [CreateThread] once,
    succeeds exactly when that returns a handle, and binds the new handle,
    function and parameter around the same exit event. *)
Theorem Thread_Start_after_Join
  (os : OS) (this : Thread) (timeoutInMs : Z) (h : Trace)
  (pFnThreadFunc pThreadParameter : Z) (h' : Trace) :
  fst (fst (Thread_Join os this timeoutInMs h)) = Success ->
  pFnThreadFunc <> NULL ->
  let joined := snd (fst (Thread_Join os this timeoutInMs h)) in
  let created := os_returns os h' (SysCreateThread pFnThreadFunc pThreadParameter) in
  let restart := Thread_Start os joined pFnThreadFunc pThreadParameter h' in
  calls (snd restart) = [EvCall (SysCreateThread pFnThreadFunc pThreadParameter) created]
  /\ (fst (fst restart) = Success <-> created <> NULL)
  /\ hThread (snd (fst restart)) = created
  /\ pFnFunction (snd (fst restart)) = pFnThreadFunc
  /\ pParameter (snd (fst restart)) = pThreadParameter
  /\ onExit (snd (fst restart)) = onExit this.
Proof.
  intros Hs Hf. cbv zeta.
  destruct (Thread_Join_release_or_keep os this timeoutInMs h)
    as [(_ & Ht & _) | (Hr & _)]; [|contradiction].
  rewrite Ht. unfold Thread_Start. cbn [Reset hThread onExit].
  apply Z.eqb_neq in Hf. rewrite Hf. cbn [Z.eqb NULL andb negb].
  run_M. cbn [hThread pFnFunction pParameter onExit].
  destruct (Z.eqb_spec (os_returns os h' (SysCreateThread pFnThreadFunc pThreadParameter)) NULL)
    as [Hc|Hc]; cbn; repeat split; intros; try congruence; try discriminate.
Qed.

(** X13. When [CreateThread] fails, [Thread::Start] returns [Error] with a
    warning; the object has recorded the function and the parameter but
    holds no handle, is not joinable, and a later [Start] for which thread
    creation works succeeds. *)
Theorem Thread_Start_creation_failure
  (os : OS) (this : Thread) (pFnThreadFunc pThreadParameter : Z) (h : Trace) :
  hThread this = NULL ->
  pFnThreadFunc <> NULL ->
  os_returns os h (SysCreateThread pFnThreadFunc pThreadParameter) = NULL ->
  Thread_Start os this pFnThreadFunc pThreadParameter h =
    ((Error,
      {| pFnFunction := pFnThreadFunc; pParameter := pThreadParameter;
         hThread := NULL; onExit := onExit this |}),
     [EvCall (SysCreateThread pFnThreadFunc pThreadParameter) NULL;
      EvDiag (DiagWarn "result != Result::Error")])
  /\ IsJoinable (snd (fst (Thread_Start os this pFnThreadFunc pThreadParameter h)))
     = false
  /\ (forall (fn param : Z) (h' : Trace),
        fn <> NULL ->
        os_returns os h' (SysCreateThread fn param) <> NULL ->
        fst (fst (Thread_Start os
                    (snd (fst (Thread_Start os this pFnThreadFunc
                                 pThreadParameter h)))
                    fn param h')) = Success).
Proof.
  intros Hh Hf Hc.
  assert (Hrun : Thread_Start os this pFnThreadFunc pThreadParameter h =
    ((Error,
      {| pFnFunction := pFnThreadFunc; pParameter := pThreadParameter;
         hThread := NULL; onExit := onExit this |}),
     [EvCall (SysCreateThread pFnThreadFunc pThreadParameter) NULL;
      EvDiag (DiagWarn "result != Result::Error")])).
  { unfold Thread_Start. rewrite Hh.
    apply Z.eqb_neq in Hf. rewrite Hf. cbn [Z.eqb NULL andb negb].
    run_M. cbn [hThread pFnFunction pParameter onExit]. rewrite Hc. reflexivity. }
  rewrite Hrun. cbn [fst snd]. split; [reflexivity|]. split; [reflexivity|].
  intros fn param h' Hfn Hcr.
  rewrite Thread_Start_created by (try reflexivity; exact Hfn).
  apply Z.eqb_neq in Hcr. rewrite Hcr. reflexivity.
Qed.
Ltac eqb_to_prop :=
  repeat match goal with
         | H : (_ =? _) = true |- _ => apply Z.eqb_eq in H
         | H : (_ =? _) = false |- _ => apply Z.eqb_neq in H
         | H : negb _ = true |- _ => apply negb_true_iff in H
         | H : negb _ = false |- _ => apply negb_false_iff in H
         end.

Ltac in_list :=
  cbn [In] in *;
  repeat match goal with
         | H : _ \/ _ |- _ => destruct H
         | H : False |- _ => contradiction
         | H : EvDiag _ = EvDiag _ |- _ => try discriminate H; clear H
         | H : EvCall _ _ = EvDiag _ |- _ => discriminate H
         | H : EvDiag _ = EvCall _ _ |- _ => discriminate H
         end.

(** X8. [WaitObject] waits exactly once, also on a null handle, for which it
    raises the assertion first; it asks for the last error and raises the
    unconditional assertion exactly when the status is [WAIT_FAILED], warns
    exactly when it returns [Error], and is silent otherwise. *)
Theorem WaitObject_diagnostics
  (os : OS) (hObject : HANDLE) (millisecTimeout : Z) (h : Trace) :
  let status := WaitObject_status os hObject millisecTimeout h in
  let run := WaitObject os hObject millisecTimeout h in
  filter is_wait (snd run) =
    [EvCall (SysWaitForSingleObject hObject millisecTimeout) status]
  /\ (In (EvDiag (DiagAssert "hObject != NULL")) (snd run) <-> hObject = NULL)
  /\ (filter is_last_error (snd run) <> [] <-> status = WAIT_FAILED)
  /\ (In (EvDiag (DiagAssert "Unconditional Assert")) (snd run)
      <-> status = WAIT_FAILED)
  /\ (In (EvDiag (DiagWarn "result != Result::Error")) (snd run)
      <-> fst run = Error)
  /\ (fst run <> Error -> filter is_diag (snd run) =
        if hObject =? NULL then [EvDiag (DiagAssert "hObject != NULL")] else []).
Proof.
  cbv zeta. split; [apply WaitObject_waits_once|].
  unfold WaitObject_status. unfold_platform. run_M.
  repeat (break_if; run_M); rewrite ?app_nil_r in *;
    cbn [filter is_last_error is_diag fst snd];
    eqb_to_prop; unfold WAIT_OBJECT_0, WAIT_TIMEOUT, WAIT_FAILED, NULL in *;
    repeat split; intros; in_list; try congruence; try lia; try discriminate;
    try (cbn [In]; tauto).
Qed.

(** ** The name handed to the system *)

Lemma wcs_of_terminated (chars rest : list Z) :
  (List.length (wcs_of (chars ++ 0%Z :: rest)) <= List.length chars)%nat.
Proof.
  induction chars as [|c chars IH]; cbn [app wcs_of List.length]; [cbn; lia|].
  destruct (c =? 0); cbn [List.length]; lia.
Qed.

(** What [mbstowcs] stores: the converted characters, followed by the
    terminating zero when it was reached. *)
Lemma mbstowcs_chars_shape (mb : Decoder) (len : nat) :
  forall (src : string) (k : nat),
    snd (mbstowcs_chars mb src len) = Some k ->
    exists chars : list Z,
      List.length chars = k
      /\ (fst (mbstowcs_chars mb src len) = chars /\ k = len
          \/ fst (mbstowcs_chars mb src len) = chars ++ [0]).
Proof.
  induction len as [|len IH]; intros src k; cbn [mbstowcs_chars].
  - cbn. intros H. injection H as <-. exists []. auto.
  - destruct src as [|c rest].
    + cbn. intros H. injection H as <-. exists []. auto.
    + destruct (mb (String c rest)) as [[wc rest']|]; [|discriminate].
      specialize (IH rest').
      destruct (mbstowcs_chars mb rest' len) as [ws [n|]];
        cbn [fst snd option_map] in *; [|discriminate].
      intros H. injection H as <-.
      destruct (IH n eq_refl) as (chars & Hlen & [[-> Hn] | ->]).
      * exists (wc :: chars). cbn [List.length]. split; [lia|]. left. split; [reflexivity|lia].
      * exists (wc :: chars). cbn [List.length]. split; [lia|]. right. reflexivity.
Qed.

Lemma skipn_zeros (k N : nat) :
  skipn k (repeat 0 N) = repeat 0 (N - k).
Proof.
  revert N. induction k as [|k IH]; intros N.
  - rewrite Nat.sub_0_r. reflexivity.
  - destruct N as [|N]; [reflexivity|]. cbn [repeat skipn Nat.sub]. apply IH.
Qed.

Lemma store_wcs_zeroed (chars : list Z) (N : nat) :
  (List.length chars < N)%nat ->
  exists rest : list Z, store_wcs chars (repeat 0 N) = chars ++ 0 :: rest.
Proof.
  intros H. unfold store_wcs. rewrite skipn_zeros.
  destruct (N - List.length chars)%nat as [|m] eqn:E; [lia|].
  exists (repeat 0 m). reflexivity.
Qed.

Lemma store_wcs_terminator (chars : list Z) (N : nat) :
  exists rest : list Z,
    store_wcs (chars ++ [0]) (repeat 0 N) = chars ++ 0 :: rest.
Proof.
  unfold store_wcs. rewrite <- app_assoc. cbn [app]. eexists. reflexivity.
Qed.

(** X14. Whenever [Thread::SetNameRaw] goes on to call the naming function,
    the wide string it passes ends inside the array: it is no longer than
    the count [mbstowcs] returned, which is less than
    [kThreadNameMaxLength], for every multibyte decoder. *)
Theorem SetNameRaw_name_is_terminated
  (kThreadNameMaxLength : nat) (mbtowc : Decoder) (pThreadName : string) :
  Z.of_nat kThreadNameMaxLength <= SIZE_MAX ->
  snd (SetNameRaw_convert kThreadNameMaxLength mbtowc pThreadName)
    < Z.of_nat kThreadNameMaxLength ->
  Z.of_nat (List.length
              (wcs_of (fst (SetNameRaw_convert kThreadNameMaxLength mbtowc
                              pThreadName))))
    <= snd (SetNameRaw_convert kThreadNameMaxLength mbtowc pThreadName)
  /\ (List.length
        (wcs_of (fst (SetNameRaw_convert kThreadNameMaxLength mbtowc pThreadName)))
      < kThreadNameMaxLength)%nat.
Proof.
  intros HN Hc.
  assert (Hmain : Z.of_nat (List.length
              (wcs_of (fst (SetNameRaw_convert kThreadNameMaxLength mbtowc
                              pThreadName))))
    <= snd (SetNameRaw_convert kThreadNameMaxLength mbtowc pThreadName)); [|lia].
  revert Hc. unfold SetNameRaw_convert, mbstowcs.
  pose proof (mbstowcs_chars_shape mbtowc
                (Nat.min kThreadNameMaxLength (strlen pThreadName)) pThreadName) as Hs.
  destruct (mbstowcs_chars mbtowc pThreadName _) as [ws [k|]]; cbn [fst snd] in *;
    [|lia].
  intros Hc.
  destruct (Hs k eq_refl) as (chars & Hlen & [[-> Hk] | ->]).
  - destruct (store_wcs_zeroed chars kThreadNameMaxLength) as [rest ->]; [lia|].
    pose proof (wcs_of_terminated chars rest). lia.
  - destruct (store_wcs_terminator chars kThreadNameMaxLength) as [rest ->].
    pose proof (wcs_of_terminated chars rest). lia.
Qed.

Lemma mbstowcs_chars_C_whole (src : string) :
  mbstowcs_chars mbtowc_C src (strlen src) = (wide_of_string src, Some (strlen src)).
Proof.
  induction src as [|c rest IH]; [reflexivity|].
  cbn [strlen String.length mbstowcs_chars mbtowc_C wide_of_string].
  unfold strlen in IH. rewrite IH. reflexivity.
Qed.

Lemma wcs_of_wide (s : string) (rest : list Z) :
  no_nul s = true -> wcs_of (wide_of_string s ++ 0 :: rest) = wide_of_string s.
Proof.
  induction s as [|c s IH]; cbn [no_nul wide_of_string app wcs_of]; [reflexivity|].
  intros H. apply andb_true_iff in H. destruct H as [Hc Hs].
  apply negb_true_iff, N.eqb_neq in Hc.
  destruct (Z.eqb_spec (Z.of_N (N_of_ascii c)) 0) as [H0|H0]; [lia|].
  rewrite IH by exact Hs. reflexivity.
Qed.

Lemma wide_of_string_length (s : string) :
  List.length (wide_of_string s) = strlen s.
Proof.
  induction s as [|c s IH]; [reflexivity|].
  cbn [wide_of_string List.length strlen String.length]. unfold strlen in IH.
  rewrite IH. reflexivity.
Qed.

Lemma SetNameRaw_convert_C_short (N : nat) (name : string) :
  (strlen name < N)%nat -> no_nul name = true ->
  wcs_of (fst (SetNameRaw_convert N mbtowc_C name)) = wide_of_string name
  /\ snd (SetNameRaw_convert N mbtowc_C name) = Z.of_nat (strlen name).
Proof.
  intros Hlen Hnul. unfold SetNameRaw_convert, mbstowcs.
  replace (Nat.min N (strlen name)) with (strlen name) by lia.
  rewrite mbstowcs_chars_C_whole.
  destruct (store_wcs_zeroed (wide_of_string name) N) as [rest ->].
  - rewrite wide_of_string_length. exact Hlen.
  - split; [apply wcs_of_wide; exact Hnul | reflexivity].
Qed.

(** X15. With one byte per character, a name shorter than
    [kThreadNameMaxLength] is passed to the naming function whole, character
    by character, with the handle of the object as it is; the result is
    [Success] or [Error] as the naming function reports. *)
Theorem Thread_SetNameRaw_passes_whole_name
  (os : OS) (kThreadNameMaxLength : nat) (this : Thread) (pThreadName : string)
  (h : Trace) :
  (strlen pThreadName < kThreadNameMaxLength)%nat ->
  no_nul pThreadName = true ->
  let cModule := SysGetModuleHandle "kernel32.dll" in
  let hModule := os_returns os h cModule in
  let h1 := h ++ [EvCall cModule hModule] in
  let cProc := SysGetProcAddress hModule "SetThreadDescription" in
  let pfn := os_returns os h1 cProc in
  let h2 := h1 ++ [EvCall cProc pfn] in
  let cName :=
    SysSetThreadDescription pfn (hThread this) (wide_of_string pThreadName) in
  hModule <> NULL -> pfn <> NULL ->
  Thread_SetNameRaw os kThreadNameMaxLength mbtowc_C this pThreadName h =
    (if SUCCEEDED (os_returns os h2 cName) then Success else Error,
     [EvCall cModule hModule; EvCall cProc pfn;
      EvCall cName (os_returns os h2 cName)]).
Proof.
  intros Hlen Hnul. cbv zeta. intros Hm Hp.
  rewrite Thread_SetNameRaw_run. cbv zeta.
  apply Z.eqb_neq in Hm, Hp. rewrite Hm, Hp.
  destruct (SetNameRaw_convert_C_short kThreadNameMaxLength pThreadName Hlen Hnul)
    as [-> ->].
  destruct (Z.ltb_spec (Z.of_nat (strlen pThreadName)) (Z.of_nat kThreadNameMaxLength));
    [reflexivity | lia].
Qed.

(** ** Vsnprintf *)

(** X16. [Platform::Vsnprintf] never returns zero: a count from [vsnprintf]
    comes back one larger, to account for the terminating zero, a negative
    value comes back unchanged, and the largest [int] wraps to the smallest. *)
Theorem Vsnprintf_never_zero (returned : Z) :
  Vsnprintf returned <> 0
  /\ (0 <= returned < INT32_MAX -> Vsnprintf returned = returned + 1)
  /\ (INT32_MIN <= returned < 0 -> Vsnprintf returned = returned)
  /\ Vsnprintf INT32_MAX = INT32_MIN.
Proof.
  unfold Vsnprintf, INT32_MAX, INT32_MIN.
  pose proof (wrap_signed_range 32 returned) as Hr.
  change (2 ^ (32 - 1)) with (2 ^ 31) in Hr. fold (to_int32 returned) in Hr.
  split; [|split; [|split]].
  - destruct (Z.leb_spec 0 (to_int32 returned)) as [Hpos|Hneg]; [|lia].
    destruct (Z.eq_dec (to_int32 returned) (2 ^ 31 - 1)) as [Hmax|Hmax].
    + rewrite Hmax. vm_compute. discriminate.
    + unfold to_int32 at 1. rewrite wrap_signed_small; [lia | lia |].
      change (2 ^ (32 - 1)) with (2 ^ 31). lia.
  - intros H. unfold to_int32. rewrite (wrap_signed_small 32 returned);
      [| lia | change (2 ^ (32 - 1)) with (2 ^ 31); lia].
    destruct (Z.leb_spec 0 returned); [|lia].
    apply wrap_signed_small; [lia | change (2 ^ (32 - 1)) with (2 ^ 31); lia].
  - intros H. unfold to_int32. rewrite (wrap_signed_small 32 returned);
      [| lia | change (2 ^ (32 - 1)) with (2 ^ 31); lia].
    destruct (Z.leb_spec 0 returned); [lia|reflexivity].
  - vm_compute. reflexivity.
Qed.

(** ** The spin lock, stated on the lock object *)


(** X5. While the lock word is [1] and no other thread changes that,
    [AtomicLock::Lock] and [Windows::AcquireFastLock] do not return, however
    many times they access the word: the lock is not reentrant. *)
Theorem AtomicLock_Lock_blocks_while_held
  (others : list (Z -> Z)) (this : AtomicLock) :
  m_lock this = 1 ->
  Forall (fun other => other 1 = 1) others ->
  AtomicLock_Lock others this = None
  /\ AcquireFastLock others (m_lock this) = None.
Proof.
  intros Hw Hall. unfold AtomicLock_Lock, AcquireFastLock. rewrite Hw.
  rewrite (Lock_run_held_forever others LockAtExchange Hall). split; reflexivity.
Qed.

(** X6. [AtomicLock::Lock] on a free lock takes it at its first access; on a
    held lock it takes it once the holder has unlocked, however long it spun
    before; on a word that is neither [0] nor [1] it returns at once and
    leaves the word as it is. *)
Theorem AtomicLock_Lock_acquires
  (this : AtomicLock) (waited : nat) (rest : list (Z -> Z)) :
  (m_lock this = 0 ->
     AtomicLock_Lock (other_idle :: rest) this = Some {| m_lock := 1 |})
  /\ (m_lock this = 1 ->
        AtomicLock_Lock
          (repeat other_idle waited ++ other_unlocks :: other_idle :: rest) this
        = Some {| m_lock := 1 |})
  /\ (m_lock this <> 0 -> m_lock this <> 1 ->
        AtomicLock_Lock (other_idle :: rest) this = Some this).
Proof.
  unfold AtomicLock_Lock. destruct this as [w]. cbn [m_lock].
  split; [|split].
  - intros ->. reflexivity.
  - intros ->. rewrite Lock_run_after_unlock. reflexivity.
  - intros H0 H1. cbn [AtomicLock_Lock_run]. unfold other_idle.
    unfold InterlockedCompareExchangeAcquire, InterlockedCompareExchange.
    apply Z.eqb_neq in H0, H1. rewrite H0, H1. reflexivity.
Qed.

(** X7. [Windows::AcquireFastLock] returns only [Success], with a word that
    is not zero, [1] under the discipline of [0] and [1], which
    [Windows::ReleaseFastLock] then frees with [Success]. [ReleaseFastLock]
    returns [Error] exactly on a word of [0], frees exactly the words [0]
    and [1], and leaves every other word as it is while returning [Success]. *)
Theorem FastLock_acquire_release (others : list (Z -> Z)) (mutex : Z) :
  (forall (result : Result) (word : Z),
      AcquireFastLock others mutex = Some (result, word) ->
      result = Success /\ word <> 0
      /\ (Forall keeps_01 others -> mutex = 0 \/ mutex = 1 ->
            word = 1 /\ ReleaseFastLock word = (Success, 0)))
  /\ (fst (ReleaseFastLock mutex) = Error <-> mutex = 0)
  /\ (fst (ReleaseFastLock mutex) = Success <-> mutex <> 0)
  /\ (snd (ReleaseFastLock mutex) = 0 <-> mutex = 0 \/ mutex = 1)
  /\ (mutex <> 1 -> snd (ReleaseFastLock mutex) = mutex).
Proof.
  split; [|split; [|split; [|split]]].
  - unfold AcquireFastLock. intros result word Hrun.
    destruct (AtomicLock_Lock_run others LockAtExchange mutex) as [w|] eqn:E;
      [|discriminate].
    cbn [option_map] in Hrun. injection Hrun as <- <-.
    destruct (Lock_run_returns_held others _ _ _ E) as [Hn Hk].
    split; [reflexivity|]. split; [exact Hn|]. intros Hall Hw.
    specialize (Hk Hall Hw). subst w. split; reflexivity.
  - unfold ReleaseFastLock, InterlockedCompareExchangeRelease,
      InterlockedCompareExchange.
    destruct (Z.eqb_spec mutex 0); cbn [fst]; split; intros; congruence.
  - unfold ReleaseFastLock, InterlockedCompareExchangeRelease,
      InterlockedCompareExchange.
    destruct (Z.eqb_spec mutex 0); cbn [fst]; split; intros; congruence.
  - unfold ReleaseFastLock, InterlockedCompareExchangeRelease,
      InterlockedCompareExchange.
    destruct (Z.eqb_spec mutex 0); destruct (Z.eqb_spec mutex 1); cbn [snd];
      split; intros; try lia; auto.
  - unfold ReleaseFastLock, InterlockedCompareExchangeRelease,
      InterlockedCompareExchange. intros H1.
    destruct (Z.eqb_spec mutex 0); destruct (Z.eqb_spec mutex 1); cbn [snd];
      try lia; reflexivity.
Qed.

(** ** Semaphore::Signal *)

(** X17. [Semaphore::Signal] makes exactly one call, [ReleaseSemaphore] of
    one unit on its handle, also when the handle is null, which it asserts;
    it returns [Success] exactly when that call returned non-zero and
    [Error] otherwise. *)
Theorem Semaphore_Signal_releases_one (os : OS) (this : Semaphore) (h : Trace) :
  let pre := snd (DD_ASSERT (negb (m_semaphore this =? NULL)) "pSemaphore != NULL" h) in
  let released_ := os_returns os (h ++ pre) (SysReleaseSemaphore (m_semaphore this) 1) in
  calls (snd (Semaphore_Signal os this h)) =
    [EvCall (SysReleaseSemaphore (m_semaphore this) 1) released_]
  /\ (fst (Semaphore_Signal os this h) = Success <-> released_ <> 0)
  /\ (fst (Semaphore_Signal os this h) = Error <-> released_ = 0)
  /\ (In (EvDiag (DiagAssert "pSemaphore != NULL")) (snd (Semaphore_Signal os this h))
      <-> m_semaphore this = NULL).
Proof.
  cbv zeta. unfold Semaphore_Signal, SignalSharedSemaphore, ReleaseSemaphore. run_M.
  destruct (Z.eqb_spec (m_semaphore this) NULL) as [Hn|Hn]; cbn [negb]; run_M;
    match goal with
    | |- context [os_returns os ?hh ?c =? 0] =>
        destruct (Z.eqb_spec (os_returns os hh c) 0) as [Hr|Hr]
    end; cbn [negb fst snd calls filter is_call In];
    repeat split; intros; in_list; try congruence; try discriminate; auto.
Qed.

(** ** Handles of another process, libraries, mutexes *)

Ltac run_host :=
  unfold Host.DD_ASSERT, Host.DD_WARN;
  unfold Host.bind, Host.ret, Host.emit, Host.call; cbn [fst snd app].

Arguments Host.replies : simpl never.

Ltac host_step :=
  run_host; cbn [negb]; change (NULL =? NULL) with true in *; cbn [negb].

Ltac host_cases :=
  repeat (host_step;
          try match goal with
              | |- context [if ?c then _ else _] => destruct c eqn:?
              end);
  host_step; rewrite ?app_nil_r in *; eqb_to_prop.




(** X20. [Library::Load] first asks for a module that is already loaded and
    calls [LoadLibraryA] only when that fails; it returns [FileNotFound]
    exactly when both fail and [Success] otherwise, binds the handle it
    obtained, never frees the handle the object held and emits no
    diagnostic. *)
Theorem Library_Load_finds_or_loads
  (sys : Host.System) (this : Host.Library) (pLibraryName : string)
  (h : Host.Trace) :
  let cFind := Host.GetModuleHandleExA 0 pLibraryName in
  let found := Host.replies sys h cFind in
  let cLoad := Host.LoadLibraryA pLibraryName in
  let loaded := Host.replies sys (h ++ [Host.Called cFind found]) cLoad in
  let run := Host.Library_Load sys this pLibraryName h in
  (Host.returned found <> Host.FALSE ->
     run = ((Success, {| Host.m_hLib := Host.written found |}),
            [Host.Called cFind found]))
  /\ (Host.returned found = Host.FALSE ->
        Host.calls_of (snd run) = [cFind; cLoad]
        /\ Host.m_hLib (snd (fst run)) = Host.returned loaded
        /\ (fst (fst run) = FileNotFound <-> Host.returned loaded = NULL)
        /\ (fst (fst run) = Success <-> Host.returned loaded <> NULL))
  /\ filter Host.is_free (snd run) = []
  /\ filter Host.is_logged (snd run) = [].
Proof.
  cbv zeta. unfold Host.Library_Load.
  host_cases; cbn [Host.calls_of app fst snd filter Host.is_free Host.is_logged
                   Host.m_hLib] in *; eqb_to_prop;
    repeat split; intros; try congruence; try contradiction.
Qed.

(** X21. [Library::Close] frees the handle of the object exactly when it is
    not null and leaves the object without a handle; closing again makes no
    call. *)
Theorem Library_Close_is_idempotent
  (sys : Host.System) (this : Host.Library) (h h' : Host.Trace) :
  let run := Host.Library_Close sys this h in
  Host.m_hLib (fst run) = NULL
  /\ snd run =
       (if Host.m_hLib this =? NULL then []
        else [Host.Called (Host.FreeLibrary (Host.m_hLib this))
                (Host.replies sys h (Host.FreeLibrary (Host.m_hLib this)))])
  /\ Host.Library_Close sys (fst run) h' = (fst run, []).
Proof.
  cbv zeta.
  assert (Hclose : Host.m_hLib (fst (Host.Library_Close sys this h)) = NULL).
  { unfold Host.Library_Close.
    destruct (Z.eqb_spec (Host.m_hLib this) NULL) as [Hn|Hn]; cbn [negb];
      run_host; [exact Hn | reflexivity]. }
  split; [exact Hclose|]. split.
  - unfold Host.Library_Close.
    destruct (Z.eqb_spec (Host.m_hLib this) NULL); cbn [negb]; run_host; reflexivity.
  - unfold Host.Library_Close at 1. rewrite Hclose. reflexivity.
Qed.

(** *** Mutex *)

Lemma to_int32_succ_is_one (c : Z) :
  INT32_MIN <= c <= INT32_MAX -> (to_int32 (c + 1) =? 1) = (c =? 0).
Proof.
  unfold INT32_MIN, INT32_MAX. intros Hc.
  destruct (Z.eq_dec c (2 ^ 31 - 1)) as [->|Hmax]; [reflexivity|].
  unfold to_int32. rewrite wrap_signed_small;
    [| lia | change (2 ^ (32 - 1)) with (2 ^ 31); lia].
  destruct (Z.eqb_spec (c + 1) 1); destruct (Z.eqb_spec c 0); lia || reflexivity.
Qed.

(** X22. In a debug build [Mutex::Lock] enters the critical section,
    increments the counter and raises the assertion exactly when the counter
    was not zero, that is when the mutex is locked again before it was
    unlocked; in a release build it only enters the critical section. *)
Theorem Mutex_Lock_detects_recursion
  (sys : Host.System) (this : Host.Mutex) (h : Host.Trace) :
  INT32_MIN <= Host.lockCount this <= INT32_MAX ->
  let cEnter := Host.EnterCriticalSection (Host.criticalSection this) in
  Host.Mutex_Lock sys true this h =
    ({| Host.criticalSection := Host.criticalSection this;
        Host.lockCount := to_int32 (Host.lockCount this + 1) |},
     Host.Called cEnter (Host.replies sys h cEnter)
       :: (if Host.lockCount this =? 0 then []
           else [Host.Logged (DiagAssert "count == 1")]))
  /\ Host.Mutex_Lock sys false this h =
       (this, [Host.Called cEnter (Host.replies sys h cEnter)]).
Proof.
  intros Hc. cbv zeta. split; [|reflexivity].
  unfold Host.Mutex_Lock, AtomicIncrement, InterlockedIncrement, cast_result.
  cbn [fst snd]. run_host.
  unfold to_int32 at 1. rewrite wrap_signed_idem by lia. fold (to_int32 (Host.lockCount this + 1)).
  rewrite (to_int32_succ_is_one _ Hc).
  destruct (Host.lockCount this =? 0); reflexivity.
Qed.

Lemma Mutex_run_cons (sys : Host.System) (debug : bool) (this : Host.Mutex)
  (op : Host.MutexOp) (rest : list Host.MutexOp) (h : Host.Trace) :
  Host.Mutex_run sys debug this (op :: rest) h =
    let step := Host.Mutex_apply sys debug this op h in
    let tail := Host.Mutex_run sys debug (fst step) rest (h ++ snd step) in
    (fst tail, snd step ++ snd tail).
Proof.
  cbn [Host.Mutex_run]. unfold Host.bind.
  destruct (Host.Mutex_apply sys debug this op h) as [this' e1]. cbn [fst snd].
  destruct (Host.Mutex_run sys debug this' rest (h ++ e1)) as [this'' e2].
  reflexivity.
Qed.

Lemma Mutex_apply_debug (sys : Host.System) (this : Host.Mutex)
  (op : Host.MutexOp) (h : Host.Trace) :
  Host.criticalSection (fst (Host.Mutex_apply sys true this op h)) =
    Host.criticalSection this
  /\ Host.lockCount (fst (Host.Mutex_apply sys true this op h)) =
       to_int32 (Host.Mutex_depth (Host.lockCount this) [op]).
Proof.
  destruct op; cbn [Host.Mutex_apply Host.Mutex_depth].
  - unfold Host.Mutex_Lock, AtomicIncrement, InterlockedIncrement, cast_result.
    cbn [fst snd]. run_host.
    destruct (to_int32 (to_int32 (Host.lockCount this + 1)) =? 1); split; reflexivity.
  - unfold Host.Mutex_Unlock, AtomicDecrement, InterlockedDecrement, cast_result.
    cbn [fst snd]. run_host. split; reflexivity.
Qed.

Lemma Mutex_depth_shift (ops : list Host.MutexOp) :
  forall held : Z, Host.Mutex_depth held ops = held + Host.Mutex_depth 0 ops.
Proof.
  induction ops as [|op rest IH]; intros held; cbn [Host.Mutex_depth]; [lia|].
  destruct op; rewrite (IH (held + 1)) || rewrite (IH (held - 1));
    rewrite (IH (0 + 1)) || rewrite (IH (0 - 1)); lia.
Qed.

Lemma Mutex_run_debug_count (sys : Host.System) (ops : list Host.MutexOp) :
  forall (this : Host.Mutex) (h : Host.Trace),
    Host.criticalSection (fst (Host.Mutex_run sys true this ops h)) =
      Host.criticalSection this
    /\ to_int32 (Host.lockCount (fst (Host.Mutex_run sys true this ops h))) =
         to_int32 (Host.Mutex_depth (Host.lockCount this) ops).
Proof.
  induction ops as [|op rest IH]; intros this h; [split; reflexivity|].
  rewrite Mutex_run_cons. cbv zeta. cbn [fst].
  destruct (Mutex_apply_debug sys this op h) as [Hcs Hcount].
  destruct (IH (fst (Host.Mutex_apply sys true this op h))
              (h ++ snd (Host.Mutex_apply sys true this op h))) as [Hcs' Hc'].
  split; [congruence|].
  rewrite Hc', Hcount.
  rewrite Mutex_depth_shift.
  destruct op; cbn [Host.Mutex_depth];
    rewrite (Mutex_depth_shift rest (Host.lockCount this + 1))
    || rewrite (Mutex_depth_shift rest (Host.lockCount this - 1));
    unfold to_int32; rewrite wrap_signed_add_cast_l by lia; reflexivity.
Qed.

Lemma Mutex_apply_debug_run (sys : Host.System) (this : Host.Mutex)
  (op : Host.MutexOp) (h : Host.Trace) :
  INT32_MIN <= Host.lockCount this <= INT32_MAX ->
  filter Host.is_assertion (snd (Host.Mutex_apply sys true this op h)) =
    match op with
    | Host.MutexLock =>
        if Host.lockCount this =? 0 then []
        else [Host.Logged (DiagAssert "count == 1")]
    | Host.MutexUnlock => []
    end.
Proof.
  intros Hc. destruct op; cbn [Host.Mutex_apply].
  - unfold Host.Mutex_Lock, AtomicIncrement, InterlockedIncrement, cast_result.
    cbn [fst snd]. run_host.
    unfold to_int32 at 1. rewrite wrap_signed_idem by lia.
    fold (to_int32 (Host.lockCount this + 1)).
    rewrite (to_int32_succ_is_one _ Hc).
    destruct (Host.lockCount this =? 0); reflexivity.
  - unfold Host.Mutex_Unlock. run_host. reflexivity.
Qed.

Lemma Mutex_run_debug_misuse (sys : Host.System) (ops : list Host.MutexOp) :
  forall (this : Host.Mutex) (h : Host.Trace),
    INT32_MIN <= Host.lockCount this - Z.of_nat (List.length ops) ->
    Host.lockCount this + Z.of_nat (List.length ops) <= INT32_MAX ->
    (filter Host.is_assertion (snd (Host.Mutex_run sys true this ops h)) = []
     <-> Host.Mutex_misuse (Host.lockCount this) ops = false).
Proof.
  induction ops as [|op rest IH]; intros this h Hlo Hhi; [split; reflexivity|].
  cbn [List.length] in Hlo, Hhi.
  rewrite Mutex_run_cons. cbv zeta. cbn [snd]. rewrite filter_app.
  rewrite Mutex_apply_debug_run by (unfold INT32_MIN, INT32_MAX in *; lia).
  destruct (Mutex_apply_debug sys this op h) as [_ Hcount].
  specialize (IH (fst (Host.Mutex_apply sys true this op h))
                (h ++ snd (Host.Mutex_apply sys true this op h))).
  rewrite Hcount in IH.
  unfold INT32_MIN, INT32_MAX in *.
  destruct op; cbn [Host.Mutex_depth Host.Mutex_misuse] in *;
    unfold to_int32 in IH;
    rewrite wrap_signed_small in IH
      by (try lia; change (2 ^ (32 - 1)) with (2 ^ 31); lia).
  - destruct (Z.eqb_spec (Host.lockCount this) 0) as [H0|H0]; cbn [negb orb app].
    + apply IH; lia.
    + split; discriminate.
  - cbn [app]. apply IH; lia.
Qed.

Lemma Mutex_depth_bounds (ops : list Host.MutexOp) :
  forall c : Z,
    c - Z.of_nat (List.length ops) <= Host.Mutex_depth c ops
      <= c + Z.of_nat (List.length ops).
Proof.
  induction ops as [|op l IHl]; intros c; cbn [Host.Mutex_depth List.length]; [lia|].
  destruct op; [specialize (IHl (c + 1)) | specialize (IHl (c - 1))]; lia.
Qed.

Lemma Mutex_run_debug_in_range (sys : Host.System) (ops : list Host.MutexOp) :
  forall (this : Host.Mutex) (h : Host.Trace),
    INT32_MIN <= Host.lockCount this <= INT32_MAX ->
    INT32_MIN <= Host.lockCount (fst (Host.Mutex_run sys true this ops h))
      <= INT32_MAX.
Proof.
  induction ops as [|op l IHl]; intros m hh Hm; [exact Hm|].
  rewrite Mutex_run_cons. cbv zeta. cbn [fst]. apply IHl.
  destruct (Mutex_apply_debug sys m op hh) as [_ ->].
  pose proof (wrap_signed_range 32 (Host.Mutex_depth (Host.lockCount m) [op])) as Hr.
  unfold to_int32, INT32_MIN, INT32_MAX. change (2 ^ (32 - 1)) with (2 ^ 31) in Hr.
  lia.
Qed.

(** Without overflow the counter is the number of locks held. *)
Lemma Mutex_run_debug_depth
  (sys : Host.System) (this : Host.Mutex) (ops : list Host.MutexOp)
  (h : Host.Trace) :
  INT32_MIN <= Host.lockCount this - Z.of_nat (List.length ops) ->
  Host.lockCount this + Z.of_nat (List.length ops) <= INT32_MAX ->
  Host.lockCount (fst (Host.Mutex_run sys true this ops h)) =
    Host.Mutex_depth (Host.lockCount this) ops.
Proof.
  intros Hlo Hhi.
  destruct (Mutex_run_debug_count sys ops this h) as [_ Hcount].
  pose proof (Mutex_run_debug_in_range sys ops this h) as Hrange.
  pose proof (Mutex_depth_bounds ops (Host.lockCount this)) as Hdepth.
  unfold INT32_MIN, INT32_MAX in *. unfold to_int32 in Hcount.
  rewrite !wrap_signed_small in Hcount
    by (try lia; change (2 ^ (32 - 1)) with (2 ^ 31); lia).
  exact Hcount.
Qed.

(** X23. In a debug build, along any sequence of locks and unlocks short
    enough for the counter not to overflow, no assertion is raised exactly
    when no lock is taken while one is held; the counter is the number of
    locks held, and a balanced sequence leaves the mutex as it found it. *)
Theorem Mutex_run_debug_detects_misuse
  (sys : Host.System) (this : Host.Mutex) (ops : list Host.MutexOp)
  (h : Host.Trace) :
  INT32_MIN <= Host.lockCount this - Z.of_nat (List.length ops) ->
  Host.lockCount this + Z.of_nat (List.length ops) <= INT32_MAX ->
  (filter Host.is_assertion (snd (Host.Mutex_run sys true this ops h)) = []
   <-> Host.Mutex_misuse (Host.lockCount this) ops = false)
  /\ Host.lockCount (fst (Host.Mutex_run sys true this ops h)) =
       Host.Mutex_depth (Host.lockCount this) ops
  /\ (Host.Mutex_depth 0 ops = 0 ->
        fst (Host.Mutex_run sys true this ops h) = this).
Proof.
  intros Hlo Hhi.
  pose proof (Mutex_run_debug_depth sys this ops h Hlo Hhi) as Hfinal.
  destruct (Mutex_run_debug_count sys ops this h) as [Hcs _].
  split; [apply Mutex_run_debug_misuse; assumption|]. split; [exact Hfinal|].
  intros Hbal.
  destruct (fst (Host.Mutex_run sys true this ops h)) as [cs c] eqn:E.
  destruct this as [cs0 c0]. cbn [Host.criticalSection Host.lockCount] in *.
  rewrite Mutex_depth_shift, Hbal in Hfinal. f_equal; [exact Hcs | lia].
Qed.

(** X24. In a release build a sequence of locks and unlocks emits no
    diagnostic and leaves the mutex object untouched: it makes one enter or
    leave call on the critical section per operation, in order. *)
Theorem Mutex_release_build_is_silent
  (sys : Host.System) (ops : list Host.MutexOp) :
  forall (this : Host.Mutex) (h : Host.Trace),
    fst (Host.Mutex_run sys false this ops h) = this
    /\ filter Host.is_logged (snd (Host.Mutex_run sys false this ops h)) = []
    /\ Host.calls_of (snd (Host.Mutex_run sys false this ops h)) =
         map (Host.call_of (Host.criticalSection this)) ops.
Proof.
  induction ops as [|op rest IH]; intros this h; [repeat split|].
  rewrite Mutex_run_cons. cbv zeta.
  assert (Hstep : Host.Mutex_apply sys false this op h =
                  (this, [Host.Called (Host.call_of (Host.criticalSection this) op)
                            (Host.replies sys h
                               (Host.call_of (Host.criticalSection this) op))])).
  { destruct op; reflexivity. }
  rewrite Hstep. cbn [fst snd].
  destruct (IH this (h ++ [Host.Called (Host.call_of (Host.criticalSection this) op)
                             (Host.replies sys h
                                (Host.call_of (Host.criticalSection this) op))]))
    as (H1 & H2 & H3).
  rewrite H1. cbn [app filter Host.is_logged Host.calls_of map].
  rewrite H2, H3. repeat split.
Qed.


(** ** The rest of the platform layer on concrete inputs *)

Lemma Atomic_run_sums_witness :
  INT32_MIN <= 5 <= INT32_MAX
  /\ Atomic_run 5 [OpIncrement; OpSubtract 7; OpAdd 40; OpDecrement] =
       to_int32 (5 + Atomic_total [OpIncrement; OpSubtract 7; OpAdd 40; OpDecrement]).
Proof.
  assert (H : INT32_MIN <= 5 <= INT32_MAX) by (vm_compute; split; discriminate).
  split; [exact H|].
  exact (proj1 (Atomic_run_sums 5
                  [OpIncrement; OpSubtract 7; OpAdd 40; OpDecrement] H)).
Defined.

Lemma Atomic64_run_sums_witness :
  INT64_MIN <= 5 < 2 ^ 63
  /\ Atomic64_run 5 [OpIncrement; OpSubtract 7; OpAdd 40; OpDecrement] =
       to_int64 (5 + Atomic_total [OpIncrement; OpSubtract 7; OpAdd 40; OpDecrement]).
Proof.
  assert (H : INT64_MIN <= 5 < 2 ^ 63) by (vm_compute; split; [discriminate|reflexivity]).
  split; [exact H|].
  exact (proj1 (Atomic64_run_sums 5
                  [OpIncrement; OpSubtract 7; OpAdd 40; OpDecrement] H)).
Defined.


Lemma AtomicLock_Lock_blocks_while_held_witness :
  m_lock {| m_lock := 1 |} = 1
  /\ Forall (fun other => other 1 = 1) [other_idle; other_idle; other_idle]
  /\ AtomicLock_Lock [other_idle; other_idle; other_idle] {| m_lock := 1 |} = None
  /\ AcquireFastLock [other_idle; other_idle; other_idle]
       (m_lock {| m_lock := 1 |}) = None.
Proof.
  assert (H1 : m_lock {| m_lock := 1 |} = 1) by reflexivity.
  assert (H2 : Forall (fun other => other 1 = 1)
                 [other_idle; other_idle; other_idle])
    by (repeat constructor).
  split; [exact H1|]. split; [exact H2|].
  exact (AtomicLock_Lock_blocks_while_held [other_idle; other_idle; other_idle]
           {| m_lock := 1 |} H1 H2).
Defined.

Lemma Thread_Join_skips_event_when_not_alive_witness :
  IsJoinable thread_running = true
  /\ WaitObject_status (os_wait_status WAIT_FAILED) (hThread thread_running) 0 []
       <> WAIT_TIMEOUT
  /\ forall otherTimeout : Z,
       Thread_Join (os_wait_status WAIT_FAILED) thread_running otherTimeout [] =
         Thread_Join (os_wait_status WAIT_FAILED) thread_running 1000 [].
Proof.
  assert (H1 : IsJoinable thread_running = true) by reflexivity.
  assert (H2 : WaitObject_status (os_wait_status WAIT_FAILED)
                 (hThread thread_running) 0 [] <> WAIT_TIMEOUT)
    by (vm_compute; discriminate).
  split; [exact H1|]. split; [exact H2|].
  pose proof (Thread_Join_skips_event_when_not_alive (os_wait_status WAIT_FAILED)
                thread_running 1000 [] H1 H2) as H.
  cbv zeta in H. exact (proj2 (proj2 H)).
Defined.

Lemma Thread_Join_unfinished_keeps_handle_witness :
  IsJoinable thread_running = true
  /\ WaitObject_status (os_wait_status WAIT_TIMEOUT) (hThread thread_running) 0 []
       = WAIT_TIMEOUT
  /\ fst (Thread_Join (os_wait_status WAIT_TIMEOUT) thread_running 1000 []) =
       (NotReady, thread_running).
Proof.
  assert (H1 : IsJoinable thread_running = true) by reflexivity.
  assert (H2 : WaitObject_status (os_wait_status WAIT_TIMEOUT)
                 (hThread thread_running) 0 [] = WAIT_TIMEOUT)
    by (vm_compute; reflexivity).
  split; [exact H1|]. split; [exact H2|].
  pose proof (Thread_Join_unfinished_keeps_handle (os_wait_status WAIT_TIMEOUT)
                thread_running 1000 [] H1 H2) as H.
  cbv zeta in H. apply (proj2 H). vm_compute. reflexivity.
Defined.

Lemma Thread_Start_after_Join_witness :
  fst (fst (Thread_Join (os_scripted true 0) thread_running 1000 [])) = Success
  /\ 8192 <> NULL
  /\ hThread
       (snd (fst (Thread_Start (os_scripted true 0)
                    (snd (fst (Thread_Join (os_scripted true 0) thread_running
                                 1000 [])))
                    8192 0 []))) =
     os_returns (os_scripted true 0) [] (SysCreateThread 8192 0).
Proof.
  assert (H1 : fst (fst (Thread_Join (os_scripted true 0) thread_running 1000 []))
               = Success) by (vm_compute; reflexivity).
  assert (H2 : 8192 <> NULL) by (vm_compute; discriminate).
  split; [exact H1|]. split; [exact H2|].
  pose proof (Thread_Start_after_Join (os_scripted true 0) thread_running 1000 []
                8192 0 [] H1 H2) as H.
  cbv zeta in H. exact (proj1 (proj2 (proj2 H))).
Defined.

Lemma Thread_Start_creation_failure_witness :
  hThread thread_idle = NULL
  /\ 8192 <> NULL
  /\ os_returns (os_always 0) [] (SysCreateThread 8192 0) = NULL
  /\ IsJoinable (snd (fst (Thread_Start (os_always 0) thread_idle 8192 0 [])))
     = false.
Proof.
  assert (H1 : hThread thread_idle = NULL) by reflexivity.
  assert (H2 : 8192 <> NULL) by (vm_compute; discriminate).
  assert (H3 : os_returns (os_always 0) [] (SysCreateThread 8192 0) = NULL)
    by (vm_compute; reflexivity).
  split; [exact H1|]. split; [exact H2|]. split; [exact H3|].
  exact (proj1 (proj2 (Thread_Start_creation_failure (os_always 0) thread_idle
                         8192 0 [] H1 H2 H3))).
Defined.

Lemma SetNameRaw_name_is_terminated_witness :
  Z.of_nat 64 <= SIZE_MAX
  /\ snd (SetNameRaw_convert 64 mbtowc_dbcs name_dbcs) < Z.of_nat 64
  /\ (List.length (wcs_of (fst (SetNameRaw_convert 64 mbtowc_dbcs name_dbcs)))
      < 64)%nat.
Proof.
  assert (H1 : Z.of_nat 64 <= SIZE_MAX) by (vm_compute; discriminate).
  assert (H2 : snd (SetNameRaw_convert 64 mbtowc_dbcs name_dbcs) < Z.of_nat 64)
    by (vm_compute; reflexivity).
  split; [exact H1|]. split; [exact H2|].
  exact (proj2 (SetNameRaw_name_is_terminated 64 mbtowc_dbcs name_dbcs H1 H2)).
Defined.

Lemma Thread_SetNameRaw_passes_whole_name_witness :
  (strlen "worker" < 64)%nat
  /\ no_nul "worker" = true
  /\ Thread_SetNameRaw (os_always 1) 64 mbtowc_C thread_running "worker" [] =
       (Success,
        [EvCall (SysGetModuleHandle "kernel32.dll") 1;
         EvCall (SysGetProcAddress 1 "SetThreadDescription") 1;
         EvCall (SysSetThreadDescription 1 4096 (wide_of_string "worker")) 1]).
Proof.
  assert (H1 : (strlen "worker" < 64)%nat) by (vm_compute; lia).
  assert (H2 : no_nul "worker" = true) by reflexivity.
  split; [exact H1|]. split; [exact H2|].
  pose proof (Thread_SetNameRaw_passes_whole_name (os_always 1) 64 thread_running
                "worker" [] H1 H2) as H.
  cbv zeta in H.
  assert (H3 : os_returns (os_always 1) [] (SysGetModuleHandle "kernel32.dll")
               <> NULL) by (vm_compute; discriminate).
  assert (H4 : os_returns (os_always 1)
                 ([] ++ [EvCall (SysGetModuleHandle "kernel32.dll")
                           (os_returns (os_always 1) []
                              (SysGetModuleHandle "kernel32.dll"))])
                 (SysGetProcAddress
                    (os_returns (os_always 1) []
                       (SysGetModuleHandle "kernel32.dll"))
                    "SetThreadDescription") <> NULL)
    by (vm_compute; discriminate).
  exact (H H3 H4).
Defined.

Lemma Mutex_Lock_detects_recursion_witness :
  INT32_MIN <= Host.lockCount {| Host.criticalSection := 64; Host.lockCount := 1 |}
    <= INT32_MAX
  /\ Host.Mutex_Lock (Host.sys_always 1 1) true
       {| Host.criticalSection := 64; Host.lockCount := 1 |} [] =
       ({| Host.criticalSection := 64; Host.lockCount := 2 |},
        [Host.Called (Host.EnterCriticalSection 64)
           {| Host.returned := 0; Host.written := 0 |};
         Host.Logged (DiagAssert "count == 1")]).
Proof.
  assert (H : INT32_MIN <=
              Host.lockCount {| Host.criticalSection := 64; Host.lockCount := 1 |}
              <= INT32_MAX) by (vm_compute; split; discriminate).
  split; [exact H|].
  pose proof (Mutex_Lock_detects_recursion (Host.sys_always 1 1)
                {| Host.criticalSection := 64; Host.lockCount := 1 |} [] H) as Hl.
  cbv zeta in Hl. exact (proj1 Hl).
Defined.

Lemma Mutex_run_debug_detects_misuse_witness :
  INT32_MIN <=
    Host.lockCount {| Host.criticalSection := 64; Host.lockCount := 0 |}
    - Z.of_nat (List.length [Host.MutexLock; Host.MutexUnlock])
  /\ Host.lockCount {| Host.criticalSection := 64; Host.lockCount := 0 |}
     + Z.of_nat (List.length [Host.MutexLock; Host.MutexUnlock]) <= INT32_MAX
  /\ fst (Host.Mutex_run (Host.sys_always 1 1) true
            {| Host.criticalSection := 64; Host.lockCount := 0 |}
            [Host.MutexLock; Host.MutexUnlock] []) =
     {| Host.criticalSection := 64; Host.lockCount := 0 |}.
Proof.
  assert (H1 : INT32_MIN <=
    Host.lockCount {| Host.criticalSection := 64; Host.lockCount := 0 |}
    - Z.of_nat (List.length [Host.MutexLock; Host.MutexUnlock]))
    by (vm_compute; discriminate).
  assert (H2 : Host.lockCount {| Host.criticalSection := 64; Host.lockCount := 0 |}
     + Z.of_nat (List.length [Host.MutexLock; Host.MutexUnlock]) <= INT32_MAX)
    by (vm_compute; discriminate).
  split; [exact H1|]. split; [exact H2|].
  exact (proj2 (proj2 (Mutex_run_debug_detects_misuse (Host.sys_always 1 1)
                         {| Host.criticalSection := 64; Host.lockCount := 0 |}
                         [Host.MutexLock; Host.MutexUnlock] [] H1 H2))
           eq_refl).
Defined.
